(** * librealsense, [src/ds5.h]: DS5 timestamp readers, device identity,
      calibration cache and emitter option.

    A shallow embedding of the classes declared in [ds5.h] (namespace
    [rsimpl]) together with the properties the specification states about
    them.  Fixed-width integers are [Z] with their wrap-around written out,
    raw frame buffers are pointers into a byte-addressed memory, [double]
    and [float] values are IEEE 754 numbers ([spec_float]), and a call that
    may throw returns an [outcome]. *)

From Stdlib Require Import ZArith List Lia String Ascii Strings.Byte.
From Stdlib Require Import QArith Qround SpecFloat.
From stdpp Require Import base numbers list sets vector fin finite strings pretty.

Local Open Scope Z_scope.

(** ** Machine integers *)

Module machine.

(** Two's-complement reduction of a mathematical integer to [int64_t]:
    what [++] on an [int64_t] leaves in the register. *)
Definition wrap_int64 (z : Z) : Z := (z + 2 ^ 63) mod 2 ^ 64 - 2 ^ 63.

(** Conversion to [unsigned long long], [uint64_t]. *)
Definition to_uint64 (z : Z) : Z := z mod 2 ^ 64.

(** Conversion to [uint32_t]; also the result of [uint32_t] arithmetic. *)
Definition to_uint32 (z : Z) : Z := z mod 2 ^ 32.

Definition INT_MIN : Z := - 2 ^ 31.
Definition INT_MAX : Z := 2 ^ 31 - 1.

End machine.

(** ** Raw memory

    A frame arrives as [const void *]: an address, with no length attached.
    The readers walk it byte by byte, so memory is a map from addresses to
    bytes and a buffer is the run of bytes that starts at the pointer. *)

Definition pointer := N.
Definition memory := pointer → byte.

(** [*it] used as a condition: the byte is non-zero. *)
Definition byte_nonzero (b : byte) : bool := negb (Byte.eqb b x00).

(** The scan of [validate_frame]:
    [for (it = frame, end = it + size; it != end; ++it) if ( *it ) return true;
     return false;]
    [left] is the distance [end - it]. *)
Fixpoint scan_nonzero (mem : memory) (it : pointer) (left : nat) : bool :=
  match left with
  | O => false
  | S left' =>
      if byte_nonzero (mem it) then true
      else scan_nonzero mem (N.succ it) left'
  end.

(** ** Stream requests ([backend.h], [types.h])

    The declarations of [request_mapping], [stream_profile] and
    [native_pixel_format] are not part of [ds5.h]; the readers use the
    members below.  [get_image_size] is the pixel format's own size
    computation, kept as a function of the format. *)

Record stream_profile := {
  width : Z;      (* uint32_t *)
  height : Z;     (* uint32_t *)
  fps : Z;        (* uint32_t *)
}.

Record native_pixel_format := {
  fourcc : Z;                       (* uint32_t *)
  get_image_size : Z → Z → N;       (* size_t get_image_size(width, height) *)
}.

Record request_mapping := {
  profile : stream_profile;
  pf : native_pixel_format;
}.

(** ** Channel state shared by both readers

    Each reader owns four [std::vector]s of the same fixed size, created
    with that size by the constructor and never resized. *)

Section channel_state.
Context {n : nat}.

Record channels := {
  started : vec bool n;
  total : vec Z n;            (* int64_t *)
  last_timestamp : vec Z n;   (* int *)
  counter : vec Z n;          (* int64_t, mutable *)
}.

(** Value-initialised vectors, as the member initialisers and [resize]
    leave them. *)
Definition value_initialised : channels :=
  {| started := vreplicate n false; total := vreplicate n 0;
     last_timestamp := vreplicate n 0; counter := vreplicate n 0 |}.

(** The body of the loop in [reset]. *)
Definition reset_channel (r : channels) (i : fin n) : channels :=
  {| started := vinsert i false (started r);
     total := vinsert i 0 (total r);
     last_timestamp := vinsert i 0 (last_timestamp r);
     counter := vinsert i 0 (counter r) |}.

(** [for (auto i = 0; i < n; ++i) { ... }] *)
Definition reset_loop (r : channels) : channels :=
  foldl reset_channel r (enum (fin n)).

(** [++counter[i]]: stores the incremented [int64_t] and yields it. *)
Definition pre_increment_counter (i : fin n) (r : channels) : Z * channels :=
  let c := machine.wrap_int64 (counter r !!! i + 1) in
  (c, {| started := started r; total := total r;
         last_timestamp := last_timestamp r;
         counter := vinsert i c (counter r) |}).

(** Channel [i] holds the values [reset] writes. *)
Definition cleared (r : channels) (i : fin n) : Prop :=
  started r !!! i = false ∧ total r !!! i = 0 ∧
  last_timestamp r !!! i = 0 ∧ counter r !!! i = 0.

End channel_state.

Arguments channels : clear implicits.

(** ** Floating point results

    [get_frame_timestamp] returns [double].  A [double] is an IEEE 754
    binary64 number; the conversion of an integer to [double] rounds to the
    nearest representable value, ties to even. *)

Definition double := spec_float.

(** [static_cast<double>(z)], also the implicit conversion in [return 0;]. *)
Definition double_of_Z (z : Z) : double := binary_normalize 53 1024 z 0 false.

(** The integer a finite [double] stands for, when it stands for one. *)
Definition double_to_Z (d : double) : option Z :=
  match d with
  | S754_zero _ => Some 0
  | S754_finite s m e =>
      let v := if s then Z.neg m else Z.pos m in
      if 0 <=? e then Some (v * 2 ^ e)
      else if Z.pos m mod 2 ^ (- e) =? 0 then Some (v / 2 ^ (- e))
      else None
  | _ => None
  end.

(** Little-endian load of [nbytes] bytes, the host byte order of the
    platforms the driver is built for. *)
Fixpoint load_le (mem : memory) (p : pointer) (nbytes : nat) : Z :=
  match nbytes with
  | O => 0
  | S k => Z.of_N (Byte.to_N (mem p)) + 256 * load_le mem (N.succ p) k
  end.

(** [*((uint64_t* )p)] *)
Definition load_uint64 (mem : memory) (p : pointer) : Z := load_le mem p 8.

(** ** [class ds5_timestamp_reader]

    Every method takes the reader's [recursive_mutex] for its whole body;
    calls on one reader are therefore serialised, and a method is a function
    from the state before the call to a result and the state after it. *)

Module ds5_timestamp_reader.

Definition pins : nat := 2.

Definition t := channels pins.

Definition reset (r : t) : t := reset_loop r.

(** The constructor sizes the four vectors with [pins] and calls
    [reset]. *)
Definition new : t := reset value_initialised.

Definition validate_frame (mode : request_mapping) (mem : memory)
    (frame : pointer) (r : t) : bool * t :=
  let size :=
    get_image_size (pf mode) (width (profile mode)) (height (profile mode)) in
  (scan_nonzero mem frame (N.to_nat size), r).

Definition get_frame_timestamp (mode : request_mapping) (mem : memory)
    (frame : pointer) (r : t) : double * t :=
  (double_of_Z 0, r).

(** [0x5a313620], the four-character code of Z16. *)
Definition pin_index (mode : request_mapping) : fin pins :=
  if fourcc (pf mode) =? 0x5a313620 then 1%fin else 0%fin.

Definition get_frame_counter (mode : request_mapping) (frame : pointer)
    (r : t) : Z * t :=
  let '(c, r') := pre_increment_counter (pin_index mode) r in
  (machine.to_uint64 c, r').

End ds5_timestamp_reader.

(** ** [class ds5_hid_timestamp_reader] *)

Module ds5_hid_timestamp_reader.

Definition sensors : nat := 2.

Definition t := channels sensors.

Definition reset (r : t) : t := reset_loop r.

(** The constructor resizes the four vectors to [sensors] and calls
    [reset]. *)
Definition new : t := reset value_initialised.

Definition validate_frame (mode : request_mapping) (mem : memory)
    (frame : pointer) (r : t) : bool * t :=
  let size :=
    get_image_size (pf mode) (width (profile mode)) (height (profile mode)) in
  (scan_nonzero mem frame (N.to_nat size), r).

Definition hid_data_size : Z := 14.
Definition timestamp_offset : N := 6.

(** [mode.profile.width * mode.profile.height], a [uint32_t] product. *)
Definition frame_size (mode : request_mapping) : Z :=
  machine.to_uint32 (width (profile mode) * height (profile mode)).

Definition get_frame_timestamp (mode : request_mapping) (mem : memory)
    (frame : pointer) (r : t) : double * t :=
  if frame_size mode =? hid_data_size
  then (double_of_Z (load_uint64 mem (frame + timestamp_offset)%N), r)
  else (double_of_Z 0, r).

(** The multi-character constant ['GYRO'], [0x4759524F]. *)
Definition GYRO : Z := 0x4759524F.

Definition index (mode : request_mapping) : fin sensors :=
  if fourcc (pf mode) =? GYRO then 1%fin else 0%fin.

Definition get_frame_counter (mode : request_mapping) (frame : pointer)
    (r : t) : Z * t :=
  let '(c, r') := pre_increment_counter (index mode) r in
  (machine.to_uint64 c, r').

End ds5_hid_timestamp_reader.

(** ** [class frame_timestamp_reader]: the common interface

    Both classes override the four virtual methods of
    [frame_timestamp_reader]; an object seen through that interface carries
    its dynamic class, and a call dispatches on it. *)

Module frame_timestamp_reader.

Inductive class := ds5_timestamp_reader | ds5_hid_timestamp_reader.

Inductive t :=
| image_stream (r : ds5_timestamp_reader.t)
| inertial_stream (r : ds5_hid_timestamp_reader.t).

Definition new (c : class) : t :=
  match c with
  | ds5_timestamp_reader => image_stream ds5_timestamp_reader.new
  | ds5_hid_timestamp_reader => inertial_stream ds5_hid_timestamp_reader.new
  end.

(** Both classes keep two channels. *)
Abbreviation channel := (fin 2).

Definition state (o : t) : channels 2 :=
  match o with image_stream r => r | inertial_stream r => r end.

Definition reset (o : t) : t :=
  match o with
  | image_stream r => image_stream (ds5_timestamp_reader.reset r)
  | inertial_stream r => inertial_stream (ds5_hid_timestamp_reader.reset r)
  end.

Definition validate_frame (mode : request_mapping) (mem : memory)
    (frame : pointer) (o : t) : bool * t :=
  match o with
  | image_stream r =>
      prod_map id image_stream
        (ds5_timestamp_reader.validate_frame mode mem frame r)
  | inertial_stream r =>
      prod_map id inertial_stream
        (ds5_hid_timestamp_reader.validate_frame mode mem frame r)
  end.

Definition get_frame_timestamp (mode : request_mapping) (mem : memory)
    (frame : pointer) (o : t) : double * t :=
  match o with
  | image_stream r =>
      prod_map id image_stream
        (ds5_timestamp_reader.get_frame_timestamp mode mem frame r)
  | inertial_stream r =>
      prod_map id inertial_stream
        (ds5_hid_timestamp_reader.get_frame_timestamp mode mem frame r)
  end.

Definition get_frame_counter (mode : request_mapping) (frame : pointer)
    (o : t) : Z * t :=
  match o with
  | image_stream r =>
      prod_map id image_stream
        (ds5_timestamp_reader.get_frame_counter mode frame r)
  | inertial_stream r =>
      prod_map id inertial_stream
        (ds5_hid_timestamp_reader.get_frame_counter mode frame r)
  end.

(** The channel a [get_frame_counter] call selects on this object. *)
Definition selected (o : t) (mode : request_mapping) : channel :=
  match o with
  | image_stream _ => ds5_timestamp_reader.pin_index mode
  | inertial_stream _ => ds5_hid_timestamp_reader.index mode
  end.

(** A run of [get_frame_counter] calls, one per element of [calls], in
    order; the result lists, for each call, the channel it selected and
    the value it returned. *)
Fixpoint run (calls : list (request_mapping * pointer)) (o : t)
    : list (channel * Z) * t :=
  match calls with
  | [] => ([], o)
  | (mode, frame) :: rest =>
      let '(v, o') := get_frame_counter mode frame o in
      let '(vs, o'') := run rest o' in
      ((selected o mode, v) :: vs, o'')
  end.

(** The values returned, in call order, by the calls that selected
    channel [c]. *)
Definition returned_on (c : channel) (calls : list (request_mapping * pointer))
    (o : t) : list Z :=
  (filter (λ cv, cv.1 = c) (run calls o).1).*2.

(** How many of the calls select channel [c]. *)
Definition selecting (c : channel) (calls : list (request_mapping * pointer))
    (o : t) : nat :=
  length (filter (λ call, selected o call.1 = c) calls).

End frame_timestamp_reader.

(** ** Results of calls that may throw

    [undefined] marks an execution the language gives no meaning to, such as
    [front()] on an empty vector. *)

Inductive exception :=
| not_implemented_exception (what : string)
| invalid_value_exception (what : string).

Inductive outcome (A : Type) :=
| returns (a : A)
| throws (e : exception)
| undefined.

Arguments returns {A} a.
Arguments throws {A} e.
Arguments undefined {A}.

(** ** Namespace [ds] ([ds5-private.h])

    The product identifiers are declared outside [ds5.h]; the code below
    only names them, so they are kept as a record of five [uint16_t]
    constants. *)

Module ds.

Record product_ids := {
  RS400P_PID : Z;
  RS410A_PID : Z;
  RS420R_PID : Z;
  RS430C_PID : Z;
  RS450T_PID : Z;
}.

(** An assignment of five distinct identifiers, used to run the code on
    concrete devices. *)
Definition ds5_product_ids : product_ids :=
  {| RS400P_PID := 0x0ad1; RS410A_PID := 0x0ad2; RS420R_PID := 0x0ad3;
     RS430C_PID := 0x0ad4; RS450T_PID := 0x0ad5 |}.

(** [enum calibration_table_id] *)
Definition calibration_table_id := Z.

End ds.

(** [static const std::vector<std::uint16_t> rs4xx_sku_pid]; these are also
    the five [case] labels of [get_subdevice_count], which the language
    requires to be pairwise distinct. *)
Definition rs4xx_sku_pid (ids : ds.product_ids) : list Z :=
  [ds.RS400P_PID ids; ds.RS410A_PID ids; ds.RS420R_PID ids;
   ds.RS430C_PID ids; ds.RS450T_PID ids].

(** ** Namespace [uvc] ([backend.h]): endpoint descriptors *)

Module uvc.

Record uvc_device_info := {
  vid : Z;             (* uint16_t *)
  pid : Z;             (* uint16_t *)
  mi : Z;
  unique_id : string;
}.

Record usb_device_info := { usb_id : string }.

Record hid_device_info := { hid_id : string }.

End uvc.

(** [std::vector::front()]: the first element; nothing on an empty vector,
    where the call has no defined behaviour. *)
Definition front {A} (v : list A) : option A := head v.

(** ** [class ds5_info] *)

Module ds5_info.

Record t := {
  _depth : list uvc.uvc_device_info;
  _hwm : uvc.usb_device_info;
  _hid : list uvc.hid_device_info;
}.

(** [to_string() << "..." << depth_pid]: a [uint16_t] prints in decimal. *)
Definition not_implemented_message (depth_pid : Z) : string :=
  "get_subdevice_count is not implemented for DS5 device of type "
  +:+ pretty depth_pid.

(** The [switch] over [depth_pid]. *)
Definition subdevice_count_of (ids : ds.product_ids) (depth_pid : Z)
    : outcome Z :=
  if depth_pid =? ds.RS400P_PID ids then returns 1
  else if depth_pid =? ds.RS410A_PID ids then returns 1
  else if depth_pid =? ds.RS420R_PID ids then returns 1
  else if depth_pid =? ds.RS430C_PID ids then returns 1
  else if depth_pid =? ds.RS450T_PID ids then returns 3
  else throws (not_implemented_exception (not_implemented_message depth_pid)).

Definition get_subdevice_count (ids : ds.product_ids) (info : t)
    : outcome Z :=
  match front (_depth info) with
  | None => undefined
  | Some d => subdevice_count_of ids (uvc.pid d)
  end.

End ds5_info.

(** ** [class ds5_camera::emitter_option] *)

(** A [float] is an IEEE 754 binary32 number. *)
Definition float := spec_float.

(** The rational a finite [float] stands for. *)
Definition float_to_Q (v : float) : option Q :=
  match v with
  | S754_zero _ => Some 0%Q
  | S754_finite s m e =>
      let z := if s then Z.neg m else Z.pos m in
      Some (if 0 <=? e then inject_Z (z * 2 ^ e)
            else Qmake z (Z.to_pos (2 ^ (- e))))
  | S754_infinity _ | S754_nan => None
  end.

(** Rounding toward zero. *)
Definition Qtruncate (q : Q) : Z :=
  if Qle_bool 0 q then Qfloor q else Qceiling q.

(** [static_cast<int>(v)]: the fractional part is discarded.  For a value
    with no [int] to stand for it (a NaN, an infinity, a truncation out of
    range) the conversion instruction of the x86 targets, [cvttss2si],
    yields the "integer indefinite" [INT_MIN]. *)
Definition static_cast_int (v : float) : Z :=
  match float_to_Q v with
  | Some q =>
      let n := Qtruncate q in
      if (machine.INT_MIN <=? n) && (n <=? machine.INT_MAX) then n
      else machine.INT_MIN
  | None => machine.INT_MIN
  end.

Module emitter_option.

Definition get_value_description (val : float) : outcome string :=
  match static_cast_int val with
  | 0 => returns "Off"%string
  | 1 => returns "On"%string
  | 2 => returns "Auto"%string
  | _ => throws (invalid_value_exception "value not found")
  end.

End emitter_option.

(** ** [class ds5_camera]: the raw calibration table *)

Module ds5_camera.

Inductive transport_error := hw_monitor_failure.

Section calibration_cache.

(** The hardware monitor answers the [k]-th request it receives for a
    table with bytes or with a failure; it is an external
    collaborator. *)
Variable hw_monitor_send :
  ds.calibration_table_id → nat → transport_error + list byte.

(** The device object: the one cache slot [_coefficients_table_raw] and
    the requests issued so far over [_hw_monitor]. *)
Record t := {
  _coefficients_table_raw : option (list byte);
  _hw_monitor : list ds.calibration_table_id;
}.

Definition new : t :=
  {| _coefficients_table_raw := None; _hw_monitor := [] |}.

(** Modelled from the spec: the body of [get_raw_calibration_table] and
    the [lazy] cell are defined outside [ds5.h].  The first call issues
    a request for [table_id] and caches the bytes it receives; a later
    call, for any [table_id], returns the cached bytes without a
    request; a failed request propagates and leaves the cache empty. *)
Definition get_raw_calibration_table (table_id : ds.calibration_table_id)
    (dev : t) : (transport_error + list byte) * t :=
  match _coefficients_table_raw dev with
  | Some bytes => (inr bytes, dev)
  | None =>
      let sent := _hw_monitor dev ++ [table_id] in
      match hw_monitor_send table_id (length (_hw_monitor dev)) with
      | inr bytes =>
          (inr bytes,
           {| _coefficients_table_raw := Some bytes; _hw_monitor := sent |})
      | inl err =>
          (inl err,
           {| _coefficients_table_raw := None; _hw_monitor := sent |})
      end
  end.

(** A run of calls, one per table id, collecting what each returned. *)
Fixpoint calls (ids : list ds.calibration_table_id) (dev : t)
    : list (transport_error + list byte) * t :=
  match ids with
  | [] => ([], dev)
  | id :: rest =>
      let '(res, dev') := get_raw_calibration_table id dev in
      let '(ress, dev'') := calls rest dev' in
      (res :: ress, dev'')
  end.

End calibration_cache.

End ds5_camera.

(** ** Sample requests

    Concrete stream requests used to exercise the readers: a Z16 depth
    stream, a Y8 infrared stream, and the two inertial streams. *)

Module samples.

Definition vga : stream_profile := {| width := 640; height := 480; fps := 30 |}.

Definition hid_record : stream_profile := {| width := 14; height := 1; fps := 200 |}.

Definition two_bytes_per_pixel (w h : Z) : N := Z.to_N (w * h * 2).
Definition one_byte_per_pixel (w h : Z) : N := Z.to_N (w * h).

Definition depth_z16 : request_mapping :=
  {| profile := vga;
     pf := {| fourcc := 0x5a313620; get_image_size := two_bytes_per_pixel |} |}.

Definition infrared_y8 : request_mapping :=
  {| profile := vga;
     pf := {| fourcc := 0x59382020; get_image_size := one_byte_per_pixel |} |}.

Definition gyro : request_mapping :=
  {| profile := hid_record;
     pf := {| fourcc := ds5_hid_timestamp_reader.GYRO;
              get_image_size := one_byte_per_pixel |} |}.

(** A truncated inertial record, 7 elements instead of 14. *)
Definition short_accel : request_mapping :=
  {| profile := {| width := 7; height := 1; fps := 200 |};
     pf := {| fourcc := 0x4143434C; get_image_size := one_byte_per_pixel |} |}.

Definition accel : request_mapping :=
  {| profile := hid_record;
     pf := {| fourcc := 0x4143434C; get_image_size := one_byte_per_pixel |} |}.

(** Memory that reads as the byte list [bytes] from address [0] on and
    as zero elsewhere. *)
Definition memory_of (bytes : list byte) : memory :=
  λ p, nth (N.to_nat p) bytes x00.

(** A 14-byte inertial record whose bytes 6..13 hold [2 ^ 53 + 1],
    least significant byte first. *)
Definition late_record : list byte :=
  [x00; x00; x00; x00; x00; x00;
   x01; x00; x00; x00; x00; x00; x20; x00].

(** A 14-byte inertial record whose bytes 6..13 hold [1000000]. *)
Definition early_record : list byte :=
  [x00; x00; x00; x00; x00; x00;
   x40; x42; x0f; x00; x00; x00; x00; x00].

(** The [float]s nearest to 2.9 and 0.5, and [-0.5], [3.0], [-1.0]. *)
Definition f_2_9 : float := S754_finite false 12163482 (-22).
Definition f_0_5 : float := S754_finite false 8388608 (-24).
Definition f_minus_0_5 : float := S754_finite true 8388608 (-24).
Definition f_3 : float := S754_finite false 12582912 (-22).
Definition f_minus_1 : float := S754_finite true 8388608 (-23).

Definition backlit_front : uvc.uvc_device_info :=
  {| uvc.vid := 0x8086; uvc.pid := 0x0ad5; uvc.mi := 0; uvc.unique_id := "1" |}.

Definition unknown_front : uvc.uvc_device_info :=
  {| uvc.vid := 0x8086; uvc.pid := 0; uvc.mi := 0; uvc.unique_id := "2" |}.

End samples.

(** ** Sessions on one reader

    A caller holds a [frame_timestamp_reader] and calls its four methods in
    any order; the memory a frame lies in may differ from call to call. *)

Module session.

Import frame_timestamp_reader.

(** The dynamic class of an object. *)
Definition class_of (o : t) : class :=
  match o with
  | image_stream _ => ds5_timestamp_reader
  | inertial_stream _ => ds5_hid_timestamp_reader
  end.

Inductive call :=
| call_reset
| call_validate_frame (mode : request_mapping) (mem : memory) (frame : pointer)
| call_get_frame_timestamp (mode : request_mapping) (mem : memory)
    (frame : pointer)
| call_get_frame_counter (mode : request_mapping) (frame : pointer).

Inductive result :=
| reset_done
| frame_valid (b : bool)
| frame_timestamp (d : double)
| frame_counter (v : Z).

Definition step (c : call) (o : t) : result * t :=
  match c with
  | call_reset => (reset_done, reset o)
  | call_validate_frame mode mem frame =>
      prod_map frame_valid id (validate_frame mode mem frame o)
  | call_get_frame_timestamp mode mem frame =>
      prod_map frame_timestamp id (get_frame_timestamp mode mem frame o)
  | call_get_frame_counter mode frame =>
      prod_map frame_counter id (get_frame_counter mode frame o)
  end.

Fixpoint exec (cs : list call) (o : t) : list result * t :=
  match cs with
  | [] => ([], o)
  | c :: rest =>
      let '(r, o') := step c o in
      let '(rs, o'') := exec rest o' in
      (r :: rs, o'')
  end.

(** The frame counters among the results of a session. *)
Definition counters (rs : list result) : list Z :=
  omap (λ r, match r with frame_counter v => Some v | _ => None end) rs.

(** The [get_frame_counter] calls of a session. *)
Definition counter_calls (cs : list call) : list (request_mapping * pointer) :=
  omap (λ c, match c with
             | call_get_frame_counter mode frame => Some (mode, frame)
             | _ => None
             end) cs.

Definition is_reset (c : call) : bool :=
  match c with call_reset => true | _ => false end.

(** Every counter holds an [int64_t] value. *)
Definition counters_in_range (o : t) : Prop :=
  ∀ c, - 2 ^ 63 ≤ counter (state o) !!! c < 2 ^ 63.

(** The members [started], [total] and [last_timestamp] hold the values
    [reset] writes, on every channel. *)
Definition unused_members_cleared (o : t) : Prop :=
  ∀ c, started (state o) !!! c = false ∧ total (state o) !!! c = 0
       ∧ last_timestamp (state o) !!! c = 0.

End session.

(** ** Sample frames *)

Module frames.

(** A stream of two one-byte pixels. *)
Definition two_pixels : request_mapping :=
  {| profile := {| width := 2; height := 1; fps := 30 |};
     pf := {| fourcc := 0x59382020;
              get_image_size := samples.one_byte_per_pixel |} |}.

(** The same two bytes, found at address 0 in one memory and at address 1
    in another, with different bytes after and before them. *)
Definition here : memory := samples.memory_of [x00; x01; x05].
Definition there : memory := samples.memory_of [x09; x00; x01].

(** An inertial record that differs from [samples.early_record] in its
    first six bytes only. *)
Definition early_record_other_header : list byte :=
  [x11; x22; x33; x44; x55; x66;
   x40; x42; x0f; x00; x00; x00; x00; x00].

End frames.

(** * Properties *)

(** ** Machine integers *)

Lemma wrap_int64_succ z :
  machine.wrap_int64 (machine.wrap_int64 z + 1) = machine.wrap_int64 (z + 1).
Proof.
  unfold machine.wrap_int64.
  replace ((z + 2 ^ 63) mod 2 ^ 64 - 2 ^ 63 + 1 + 2 ^ 63)
    with ((z + 2 ^ 63) mod 2 ^ 64 + 1) by lia.
  replace (z + 1 + 2 ^ 63) with (z + 2 ^ 63 + 1) by lia.
  by rewrite Zplus_mod_idemp_l.
Qed.

Lemma to_uint64_wrap_int64 z :
  machine.to_uint64 (machine.wrap_int64 z) = z mod 2 ^ 64.
Proof.
  unfold machine.to_uint64, machine.wrap_int64.
  rewrite Zminus_mod_idemp_l.
  by replace (z + 2 ^ 63 - 2 ^ 63) with z by lia.
Qed.

Lemma wrap_int64_0 : machine.wrap_int64 0 = 0.
Proof. reflexivity. Qed.

(** ** The frame scan *)

Lemma byte_nonzero_spec b : byte_nonzero b = true ↔ b ≠ x00.
Proof.
  unfold byte_nonzero. rewrite negb_true_iff. split.
  - intros H ->. discriminate H.
  - intros H. destruct (Byte.eqb b x00) eqn:E; [|done].
    by apply Byte.byte_dec_bl in E.
Qed.

Lemma scan_nonzero_spec mem it left :
  scan_nonzero mem it left = true ↔
  ∃ i : N, (i < N.of_nat left)%N ∧ mem (it + i)%N ≠ x00.
Proof.
  revert it. induction left as [|left IH]; intros it; simpl scan_nonzero.
  - split; [done|]. intros (i & Hi & _). lia.
  - destruct (byte_nonzero (mem it)) eqn:Hb.
    + split; [|done]. intros _. exists 0%N. split; [lia|].
      rewrite N.add_0_r. by apply byte_nonzero_spec.
    + rewrite IH. split.
      * intros (i & Hi & Hne). exists (N.succ i). split; [lia|].
        by replace (it + N.succ i)%N with (N.succ it + i)%N by lia.
      * intros (i & Hi & Hne).
        destruct (N.eq_dec i 0%N) as [->|Hpos].
        { rewrite N.add_0_r in Hne. apply byte_nonzero_spec in Hne. congruence. }
        exists (N.pred i). split; [lia|].
        by replace (N.succ it + N.pred i)%N with (it + i)%N by lia.
Qed.

(** ** Channel tables *)

Section channel_state_facts.
Context {n : nat}.
Implicit Types (r : channels n) (i j : fin n).

Lemma reset_channel_clears r i : cleared (reset_channel r i) i.
Proof. unfold cleared; simpl. by rewrite !vlookup_insert. Qed.

Lemma reset_channel_keeps r i j : cleared r i → cleared (reset_channel r j) i.
Proof.
  intros (Hs & Ht & Hl & Hc). unfold cleared; simpl.
  destruct (decide (j = i)) as [->|Hne].
  - by rewrite !vlookup_insert.
  - by rewrite !vlookup_insert_ne.
Qed.

Lemma foldl_reset_channel_keeps l r i :
  cleared r i → cleared (foldl reset_channel r l) i.
Proof.
  revert r. induction l as [|j l IH]; intros r H; simpl; [done|].
  apply IH. by apply reset_channel_keeps.
Qed.

Lemma foldl_reset_channel_clears l r i :
  i ∈ l → cleared (foldl reset_channel r l) i.
Proof.
  revert r. induction l as [|j l IH]; intros r Hin; simpl.
  - by apply elem_of_nil in Hin.
  - apply elem_of_cons in Hin as [->|Hin].
    + apply foldl_reset_channel_keeps, reset_channel_clears.
    + by apply IH.
Qed.

Lemma reset_loop_cleared r i : cleared (reset_loop r) i.
Proof. apply foldl_reset_channel_clears, elem_of_enum. Qed.

Lemma pre_increment_counter_value i r :
  (pre_increment_counter i r).1 = machine.wrap_int64 (counter r !!! i + 1).
Proof. reflexivity. Qed.

Lemma pre_increment_counter_same i r :
  counter (pre_increment_counter i r).2 !!! i
  = machine.wrap_int64 (counter r !!! i + 1).
Proof. simpl. by rewrite vlookup_insert. Qed.

Lemma pre_increment_counter_other i j r :
  i ≠ j → counter (pre_increment_counter i r).2 !!! j = counter r !!! j.
Proof. intros Hne. simpl. by rewrite vlookup_insert_ne. Qed.

End channel_state_facts.

(** ** Timestamp readers *)

Section timestamp_reader_facts.
Import frame_timestamp_reader.
Implicit Types (o : t) (c : channel) (mode : request_mapping).
Implicit Types (calls : list (request_mapping * pointer)).

Lemma get_frame_counter_value mode frame o :
  (get_frame_counter mode frame o).1
  = (counter (state o) !!! selected o mode + 1) mod 2 ^ 64.
Proof.
  destruct o as [r|r]; simpl;
    unfold ds5_timestamp_reader.get_frame_counter,
      ds5_hid_timestamp_reader.get_frame_counter; simpl;
    apply to_uint64_wrap_int64.
Qed.

Lemma get_frame_counter_same mode frame o :
  counter (state (get_frame_counter mode frame o).2) !!! selected o mode
  = machine.wrap_int64 (counter (state o) !!! selected o mode + 1).
Proof. destruct o as [r|r]; apply pre_increment_counter_same. Qed.

Lemma get_frame_counter_other mode frame o c :
  selected o mode ≠ c →
  counter (state (get_frame_counter mode frame o).2) !!! c
  = counter (state o) !!! c.
Proof. intros H. destruct o as [r|r]; by apply pre_increment_counter_other. Qed.

Lemma get_frame_counter_selected mode frame o mode' :
  selected (get_frame_counter mode frame o).2 mode' = selected o mode'.
Proof. by destruct o. Qed.

Lemma selecting_step mode frame o c calls :
  selecting c calls (get_frame_counter mode frame o).2 = selecting c calls o.
Proof.
  unfold selecting. f_equal. apply list_filter_iff. intros call.
  by rewrite get_frame_counter_selected.
Qed.

Lemma run_cons mode frame calls o :
  (run ((mode, frame) :: calls) o).1
  = (selected o mode, (get_frame_counter mode frame o).1)
    :: (run calls (get_frame_counter mode frame o).2).1.
Proof.
  cbn [run]. destruct (get_frame_counter mode frame o) as [v o'].
  cbn [snd]. by destruct (run calls o') as [vs o''].
Qed.

Lemma returned_on_cons c mode frame calls o :
  returned_on c ((mode, frame) :: calls) o
  = (if decide (selected o mode = c)
     then [(get_frame_counter mode frame o).1] else [])
    ++ returned_on c calls (get_frame_counter mode frame o).2.
Proof.
  unfold returned_on. rewrite run_cons, filter_cons. cbn [fst].
  by destruct (decide (selected o mode = c)).
Qed.

Lemma selecting_cons c mode frame calls o :
  selecting c ((mode, frame) :: calls) o
  = ((if decide (selected o mode = c) then 1 else 0) + selecting c calls o)%nat.
Proof.
  unfold selecting. rewrite filter_cons. cbn [fst].
  by destruct (decide (selected o mode = c)).
Qed.

(** The exact values a run returns on one channel: the counter counts
    modulo [2 ^ 64] from wherever it stands. *)
Lemma returned_on_from c calls o k :
  counter (state o) !!! c = machine.wrap_int64 k →
  returned_on c calls o
  = (λ j : nat, (k + Z.of_nat j) mod 2 ^ 64) <$> seq 1 (selecting c calls o).
Proof.
  revert o k. induction calls as [|[mode frame] calls IH]; intros o k Hk.
  - reflexivity.
  - rewrite returned_on_cons, selecting_cons.
    destruct (decide (selected o mode = c)) as [Hc|Hc].
    + rewrite (IH _ (k + 1)), selecting_step.
      * cbn [Nat.add seq fmap list_fmap app]. f_equal.
        -- rewrite get_frame_counter_value, Hc, Hk.
           rewrite <- to_uint64_wrap_int64, wrap_int64_succ.
           by rewrite to_uint64_wrap_int64.
        -- rewrite <- (fmap_S_seq 1), <- list_fmap_compose.
           apply list_fmap_ext. intros _ j _. simpl. f_equal. lia.
      * rewrite <- Hc at 1. rewrite get_frame_counter_same, Hc, Hk.
        apply wrap_int64_succ.
    + rewrite (IH _ k), selecting_step; [done|].
      by rewrite get_frame_counter_other.
Qed.

Lemma new_cleared cls c : cleared (state (new cls)) c.
Proof. destruct cls; apply reset_loop_cleared. Qed.

Lemma reset_cleared o c : cleared (state (reset o)) c.
Proof. destruct o; apply reset_loop_cleared. Qed.

Lemma returned_on_new cls c calls :
  returned_on c calls (new cls)
  = (λ j : nat, Z.of_nat j mod 2 ^ 64) <$> seq 1 (selecting c calls (new cls)).
Proof.
  apply (returned_on_from c calls (new cls) 0).
  by destruct (new_cleared cls c) as (_ & _ & _ & Hc).
Qed.

End timestamp_reader_facts.

Section timestamp_reader_claims.
Import frame_timestamp_reader.
Implicit Types (o : t) (c : channel) (mode : request_mapping).
Implicit Types (calls : list (request_mapping * pointer)).

Lemma selecting_replicate c mode frame o k :
  selected o mode = c → selecting c (replicate k (mode, frame)) o = k.
Proof.
  intros Hc. unfold selecting. induction k as [|k IH]; [done|].
  cbn [replicate]. rewrite filter_cons. cbn [fst].
  destruct (decide (selected o mode = c)); [|done].
  cbn [length]. by rewrite IH.
Qed.

(** C1, as amended.  On a freshly constructed reader of either class, the
    [get_frame_counter] calls that select a channel return 1, 2, 3, ... in
    call order, whatever calls on the other channel come in between, as
    long as fewer than [2 ^ 64] calls have selected that channel. *)
Theorem frame_counter_counts_from_one cls c calls :
  Z.of_nat (selecting c calls (new cls)) < 2 ^ 64 →
  returned_on c calls (new cls)
  = Z.of_nat <$> seq 1 (selecting c calls (new cls)).
Proof.
  intros Hfew. rewrite returned_on_new.
  apply list_fmap_ext. intros i j Hj.
  apply lookup_seq in Hj as [-> Hi].
  apply Z.mod_small. lia.
Qed.

Lemma frame_counter_counts_from_one_witness :
  returned_on 1%fin
    [(samples.depth_z16, 0%N); (samples.infrared_y8, 0%N);
     (samples.depth_z16, 0%N)] (new ds5_timestamp_reader)
  = [1; 2].
Proof.
  apply (frame_counter_counts_from_one ds5_timestamp_reader 1%fin
           [(samples.depth_z16, 0%N); (samples.infrared_y8, 0%N);
            (samples.depth_z16, 0%N)]).
  vm_compute. reflexivity.
Defined.

(** C1 fails as stated: the counter is a 64-bit integer.  After [2 ^ 64]
    calls on the depth channel of a fresh image-stream reader the values
    returned are not 1, 2, ..., [2 ^ 64]: the last call returns 0. *)
Lemma frame_counter_wraps_at_2_64 :
  returned_on 1%fin (replicate (Z.to_nat (2 ^ 64)) (samples.depth_z16, 0%N))
    (new ds5_timestamp_reader) !! Z.to_nat (2 ^ 64 - 1) = Some 0
  ∧ returned_on 1%fin (replicate (Z.to_nat (2 ^ 64)) (samples.depth_z16, 0%N))
      (new ds5_timestamp_reader)
    ≠ Z.of_nat <$>
        seq 1 (selecting 1%fin
                 (replicate (Z.to_nat (2 ^ 64)) (samples.depth_z16, 0%N))
                 (new ds5_timestamp_reader)).
Proof.
  assert (Hlast : ∀ k j : nat, Z.of_nat k = 2 ^ 64 → Z.of_nat j = 2 ^ 64 - 1 →
    returned_on 1%fin (replicate k (samples.depth_z16, 0%N))
      (new ds5_timestamp_reader) !! j = Some 0).
  { intros k j Hk Hj.
    rewrite returned_on_new, selecting_replicate by reflexivity.
    rewrite list_lookup_fmap, lookup_seq_lt by lia.
    cbn [fmap option_fmap option_map].
    rewrite Nat2Z.inj_add, Hj. reflexivity. }
  assert (Hk : Z.of_nat (Z.to_nat (2 ^ 64)) = 2 ^ 64) by (apply Z2Nat.id; lia).
  assert (Hj : Z.of_nat (Z.to_nat (2 ^ 64 - 1)) = 2 ^ 64 - 1)
    by (apply Z2Nat.id; lia).
  revert Hlast Hk Hj.
  generalize (Z.to_nat (2 ^ 64)) (Z.to_nat (2 ^ 64 - 1)).
  intros k j Hlast Hk Hj.
  split; [by apply Hlast|].
  intros Heq. specialize (Hlast k j Hk Hj). rewrite Heq in Hlast.
  rewrite selecting_replicate in Hlast by reflexivity.
  rewrite list_lookup_fmap, lookup_seq_lt in Hlast by lia.
  cbn [fmap option_fmap option_map] in Hlast.
  injection Hlast as Hlast. lia.
Qed.

(** C5.  After [reset] on a reader of either class, in whatever state, the
    next [get_frame_counter] call returns 1 whichever channel it selects,
    and every channel has [started = false] and [total],
    [last_timestamp] and [counter] equal to 0. *)
Theorem reset_restarts_counters o mode frame :
  (get_frame_counter mode frame (reset o)).1 = 1
  ∧ ∀ c, cleared (state (reset o)) c.
Proof.
  split; [|apply reset_cleared].
  rewrite get_frame_counter_value.
  destruct (reset_cleared o (selected (reset o) mode)) as (_ & _ & _ & Hc).
  by rewrite Hc.
Qed.

(** C4.  For a reader of either class, [validate_frame] leaves the reader
    as it was, and answers [true] exactly when one of the first
    [get_image_size(width, height)] bytes at [frame] is non-zero. *)
Theorem validate_frame_nonzero_byte o mode mem frame :
  (validate_frame mode mem frame o).2 = o
  ∧ ((validate_frame mode mem frame o).1 = true ↔
     ∃ i : N,
       (i < get_image_size (pf mode) (width (profile mode))
              (height (profile mode)))%N
       ∧ mem (frame + i)%N ≠ x00).
Proof.
  destruct o as [r|r]; (split; [reflexivity|]); cbn [validate_frame];
    unfold ds5_timestamp_reader.validate_frame,
      ds5_hid_timestamp_reader.validate_frame; cbn [prod_map fst id];
    by rewrite scan_nonzero_spec, N2Nat.id.
Qed.

End timestamp_reader_claims.

(** C8.  The image-stream reader's [get_frame_timestamp] returns zero for
    every request and every buffer, leaves the reader as it was, and its
    result does not depend on the memory the buffer lies in. *)
Theorem image_timestamp_is_zero (mode : request_mapping) (mem : memory)
    (frame : pointer) (r : ds5_timestamp_reader.t) :
  ds5_timestamp_reader.get_frame_timestamp mode mem frame r
  = (S754_zero false, r)
  ∧ ∀ mode' mem' frame',
      (ds5_timestamp_reader.get_frame_timestamp mode' mem' frame' r).1
      = (ds5_timestamp_reader.get_frame_timestamp mode mem frame r).1.
Proof. split; reflexivity. Qed.

(** ** Conversion of a 64-bit integer to [double] *)

Lemma digits2_pos_bounds m :
  2 ^ (Z.pos (digits2_pos m) - 1) ≤ Z.pos m < 2 ^ Z.pos (digits2_pos m).
Proof.
  induction m as [m IH|m IH|]; cbn [digits2_pos].
  - rewrite Pos2Z.inj_succ.
    replace (Z.succ (Z.pos (digits2_pos m)) - 1) with (Z.succ (Z.pos (digits2_pos m) - 1)) by lia.
    rewrite !Z.pow_succ_r by lia. lia.
  - rewrite Pos2Z.inj_succ.
    replace (Z.succ (Z.pos (digits2_pos m)) - 1) with (Z.succ (Z.pos (digits2_pos m) - 1)) by lia.
    rewrite !Z.pow_succ_r by lia. lia.
  - simpl. lia.
Qed.

Lemma iter_xO_value m k : Z.pos (Pos.iter xO m k) = Z.pos m * 2 ^ Z.pos k.
Proof.
  induction k as [|k IH] using Pos.peano_ind.
  - simpl. lia.
  - rewrite Pos.iter_succ, Pos2Z.inj_succ, Z.pow_succ_r by lia.
    rewrite Pos2Z.inj_xO, IH. lia.
Qed.

Lemma iter_xO_digits m k :
  digits2_pos (Pos.iter xO m k) = (digits2_pos m + k)%positive.
Proof.
  induction k as [|k IH] using Pos.peano_ind.
  - simpl. lia.
  - rewrite Pos.iter_succ. cbn [digits2_pos]. rewrite IH. lia.
Qed.

Lemma binary_round_aux_canonical m e :
  Z.pos (digits2_pos m) = 53 → -1074 ≤ e ≤ 971 → 
  binary_round_aux 53 1024 false (Z.pos m) e loc_Exact = S754_finite false m e.
Proof.
  intros Hd He. unfold binary_round_aux, shr_fexp, fexp, emin.
  cbn [Zdigits2 shr_record_of_loc]. rewrite Hd.
  replace (Z.max (53 + e - 53) (3 - 1024 - 53) - e) with 0 by lia.
  cbn [shr shr_m loc_of_shr_record round_nearest_even Zdigits2]. rewrite Hd.
  replace (Z.max (53 + e - 53) (3 - 1024 - 53) - e) with 0 by lia.
  cbn [shr shr_m].
  destruct (e <=? 1024 - 53) eqn:E; [done|]. lia.
Qed.

Lemma double_of_Z_exact n :
  0 ≤ n < 2 ^ 53 → double_to_Z (double_of_Z n) = Some n.
Proof.
  intros Hn. destruct n as [|m|m]; [reflexivity| |lia].
  unfold double_of_Z, binary_normalize, binary_round, shl_align, fexp, emin.
  pose proof (digits2_pos_bounds m) as Hm.
  assert (Hd : Z.pos (digits2_pos m) ≤ 53).
  { destruct (Z.le_gt_cases (Z.pos (digits2_pos m)) 53) as [|Hgt]; [done|].
    assert (2 ^ 53 ≤ 2 ^ (Z.pos (digits2_pos m) - 1)) by (apply Z.pow_le_mono_r; lia).
    lia. }
  rewrite Z.add_0_r, Z.sub_0_r.
  replace (Z.max (Z.pos (digits2_pos m) - 53) (3 - 1024 - 53))
    with (Z.pos (digits2_pos m) - 53) by lia.
  destruct (Z.pos (digits2_pos m) - 53) as [|p|p] eqn:Ep; [| lia |].
  - rewrite binary_round_aux_canonical by lia.
    cbn. rewrite Z.mul_1_r. done.
  - rewrite binary_round_aux_canonical.
    + unfold double_to_Z. 
      replace (0 <=? Z.neg p) with false by (symmetry; apply Z.leb_gt; lia).
      rewrite iter_xO_value. cbn [Z.opp].
      rewrite Z.mod_mul by lia. cbn [Z.eqb].
      rewrite Z.div_mul by lia. done.
    + rewrite iter_xO_digits, Pos2Z.inj_add. lia.
    + lia.
Qed.

Lemma load_le_range mem p k : 0 ≤ load_le mem p k < 256 ^ Z.of_nat k.
Proof.
  revert p. induction k as [|k IH]; intros p.
  - simpl. lia.
  - cbn [load_le]. rewrite Nat2Z.inj_succ, Z.pow_succ_r by lia.
    specialize (IH (N.succ p)).
    pose proof (Byte.to_N_bounded (mem p)) as Hb. lia.
Qed.

Lemma load_uint64_range mem p : 0 ≤ load_uint64 mem p < 2 ^ 64.
Proof. apply (load_le_range mem p 8). Qed.

(** C3, as amended.  The inertial-stream reader's [get_frame_timestamp]
    leaves the reader as it was.  When [width * height] is not 14 it returns
    zero.  When it is 14 it returns the conversion to [double] of the 64-bit
    unsigned integer held in the 8 bytes from byte offset 6 of the payload:
    that integer itself when it is below [2 ^ 53], and the nearest [double]
    otherwise. *)
Theorem hid_timestamp_from_offset_6 (mode : request_mapping) (mem : memory)
    (frame : pointer) (r : ds5_hid_timestamp_reader.t) :
  (ds5_hid_timestamp_reader.frame_size mode ≠ 14 →
   ds5_hid_timestamp_reader.get_frame_timestamp mode mem frame r
   = (S754_zero false, r))
  ∧ (ds5_hid_timestamp_reader.frame_size mode = 14 →
     ds5_hid_timestamp_reader.get_frame_timestamp mode mem frame r
     = (double_of_Z (load_uint64 mem (frame + 6)%N), r)
     ∧ 0 ≤ load_uint64 mem (frame + 6)%N < 2 ^ 64
     ∧ (load_uint64 mem (frame + 6)%N < 2 ^ 53 →
        double_to_Z
          (ds5_hid_timestamp_reader.get_frame_timestamp mode mem frame r).1
        = Some (load_uint64 mem (frame + 6)%N))).
Proof.
  unfold ds5_hid_timestamp_reader.get_frame_timestamp,
    ds5_hid_timestamp_reader.hid_data_size,
    ds5_hid_timestamp_reader.timestamp_offset.
  split.
  - intros Hne. by apply Z.eqb_neq in Hne as ->.
  - intros ->. cbn [Z.eqb Pos.eqb fst].
    pose proof (load_uint64_range mem (frame + 6)%N) as Hr.
    split; [done|]. split; [done|].
    intros Hsmall. apply double_of_Z_exact. lia.
Qed.

Lemma hid_timestamp_from_offset_6_witness :
  ds5_hid_timestamp_reader.get_frame_timestamp samples.short_accel
    (samples.memory_of samples.early_record) 0%N ds5_hid_timestamp_reader.new
  = (S754_zero false, ds5_hid_timestamp_reader.new)
  ∧ double_to_Z
      (ds5_hid_timestamp_reader.get_frame_timestamp samples.gyro
         (samples.memory_of samples.early_record) 0%N
         ds5_hid_timestamp_reader.new).1
    = Some 1000000.
Proof.
  split.
  - apply (proj1 (hid_timestamp_from_offset_6 samples.short_accel
      (samples.memory_of samples.early_record) 0%N
      ds5_hid_timestamp_reader.new)).
    vm_compute. lia.
  - refine (proj2 (proj2 (proj2 (hid_timestamp_from_offset_6 samples.gyro
      (samples.memory_of samples.early_record) 0%N
      ds5_hid_timestamp_reader.new) _)) _).
    + reflexivity.
    + vm_compute. reflexivity.
Defined.

(** C3 fails as stated: the result is a [double].  On a 14-byte record
    whose bytes 6..13 hold [2 ^ 53 + 1], the reader returns [2 ^ 53]. *)
Lemma hid_timestamp_rounds_above_2_53 :
  ds5_hid_timestamp_reader.frame_size samples.gyro = 14
  ∧ load_uint64 (samples.memory_of samples.late_record) (0 + 6)%N = 2 ^ 53 + 1
  ∧ double_to_Z
      (ds5_hid_timestamp_reader.get_frame_timestamp samples.gyro
         (samples.memory_of samples.late_record) 0%N
         ds5_hid_timestamp_reader.new).1
    = Some (2 ^ 53)
  ∧ double_to_Z
      (ds5_hid_timestamp_reader.get_frame_timestamp samples.gyro
         (samples.memory_of samples.late_record) 0%N
         ds5_hid_timestamp_reader.new).1
    ≠ Some (load_uint64 (samples.memory_of samples.late_record) (0 + 6)%N).
Proof. vm_compute. repeat split; congruence. Qed.

(** ** Device identity *)

Section subdevice_count.
Import ds5_info.
Variable ids : ds.product_ids.

Lemma subdevice_count_of_defined depth_pid :
  subdevice_count_of ids depth_pid ≠ undefined.
Proof. unfold subdevice_count_of. by repeat case_match. Qed.

Lemma not_implemented_message_inj : Inj (=) (=) not_implemented_message.
Proof.
  intros x y H. unfold not_implemented_message in H.
  by apply (inj (String.app _)), (inj pretty) in H.
Qed.

(** C9.  [get_subdevice_count] reads the product id of the first image
    endpoint only: on an empty endpoint list the call is undefined, it is
    defined on every non-empty one, and its result is the [switch] applied
    to the first endpoint's [pid], whatever the other endpoints, the
    hardware-monitor endpoint and the inertial endpoints are. *)
Theorem get_subdevice_count_reads_front (info : t) :
  (get_subdevice_count ids info = undefined ↔ _depth info = [])
  ∧ ∀ d rest hwm hid,
      get_subdevice_count ids {| _depth := d :: rest; _hwm := hwm; _hid := hid |}
      = subdevice_count_of ids (uvc.pid d).
Proof.
  split; [|done].
  unfold get_subdevice_count. destruct (_depth info) as [|d rest]; simpl.
  - done.
  - split; [|done]. intros H. by apply subdevice_count_of_defined in H.
Qed.

Hypothesis labels_distinct : NoDup (rs4xx_sku_pid ids).

(** Case analysis on every comparison of the [switch]. *)
Local Ltac case_labels :=
  repeat match goal with
    | |- context [?a =? ?b] => destruct (Z.eqb_spec a b)
    end.

(** C2.  With the first image endpoint [d]: [get_subdevice_count] returns
    1 when [d]'s product id is one of [RS400P_PID], [RS410A_PID],
    [RS420R_PID], [RS430C_PID]; returns 3 when it is [RS450T_PID]; and for
    every other product id throws [not_implemented_exception] with a
    message that ends in that product id and from which the id can be
    read back. *)
Theorem get_subdevice_count_by_pid (info : t) (d : uvc.uvc_device_info) :
  front (_depth info) = Some d →
  (uvc.pid d ∈ [ds.RS400P_PID ids; ds.RS410A_PID ids; ds.RS420R_PID ids;
                ds.RS430C_PID ids] →
   get_subdevice_count ids info = returns 1)
  ∧ (uvc.pid d = ds.RS450T_PID ids →
     get_subdevice_count ids info = returns 3)
  ∧ (uvc.pid d ∉ rs4xx_sku_pid ids →
     get_subdevice_count ids info
     = throws (not_implemented_exception
         ("get_subdevice_count is not implemented for DS5 device of type "
          +:+ pretty (uvc.pid d)))
     ∧ ∀ other : Z,
         not_implemented_message other = not_implemented_message (uvc.pid d)
         → other = uvc.pid d).
Proof.
  intros Hfront. unfold get_subdevice_count. rewrite Hfront.
  pose proof labels_distinct as Hnd.
  unfold rs4xx_sku_pid in *. unfold subdevice_count_of.
  rewrite !NoDup_cons, !not_elem_of_cons in Hnd.
  rewrite !elem_of_cons, !elem_of_nil.
  destruct Hnd as ((? & ? & ? & ? & _) & (? & ? & ? & _) & (? & ? & _) & (? & _) & _).
  split; [|split].
  - intros Hin. case_labels; try done; tauto.
  - intros Heq. case_labels; congruence.
  - intros Hnot. split.
    + case_labels; try done; tauto.
    + intros other Hmsg. by apply not_implemented_message_inj.
Qed.

End subdevice_count.

Lemma get_subdevice_count_by_pid_witness :
  ds5_info.get_subdevice_count ds.ds5_product_ids
    {| ds5_info._depth := [samples.backlit_front; samples.unknown_front];
       ds5_info._hwm := {| uvc.usb_id := "hwm" |}; ds5_info._hid := [] |}
  = returns 3.
Proof.
  refine (proj1 (proj2 (get_subdevice_count_by_pid ds.ds5_product_ids _
    {| ds5_info._depth := [samples.backlit_front; samples.unknown_front];
       ds5_info._hwm := {| uvc.usb_id := "hwm" |}; ds5_info._hid := [] |}
    samples.backlit_front _)) _).
  - apply (bool_decide_unpack _). vm_compute. reflexivity.
  - reflexivity.
  - reflexivity.
Defined.

(** The first endpoint decides: the same two endpoints in the other order
    make the call throw. *)
Example get_subdevice_count_front_order :
  ds5_info.get_subdevice_count ds.ds5_product_ids
    {| ds5_info._depth := [samples.unknown_front; samples.backlit_front];
       ds5_info._hwm := {| uvc.usb_id := "hwm" |}; ds5_info._hid := [] |}
  = throws (not_implemented_exception
      "get_subdevice_count is not implemented for DS5 device of type 0").
Proof. reflexivity. Qed.

(** ** Calibration cache *)

Section calibration_cache_facts.
Import ds5_camera.
Variable hw_monitor_send :
  ds.calibration_table_id → nat → transport_error + list byte.

Lemma get_raw_calibration_table_cached table_id dev bytes :
  _coefficients_table_raw dev = Some bytes →
  get_raw_calibration_table hw_monitor_send table_id dev = (inr bytes, dev).
Proof. intros H. unfold get_raw_calibration_table. by rewrite H. Qed.

Lemma calls_cached table_ids dev bytes :
  _coefficients_table_raw dev = Some bytes →
  calls hw_monitor_send table_ids dev
  = (replicate (length table_ids) (inr bytes), dev).
Proof.
  intros H. induction table_ids as [|id table_ids IH]; [done|].
  cbn [calls]. rewrite (get_raw_calibration_table_cached _ _ _ H), IH. done.
Qed.

(** A failed request is not cached: the cache stays empty and the next call
    sends a request of its own. *)
Lemma get_raw_calibration_table_retry first second err dev :
  get_raw_calibration_table hw_monitor_send first new = (inl err, dev) →
  _coefficients_table_raw dev = None
  ∧ _hw_monitor (get_raw_calibration_table hw_monitor_send second dev).2
    = [first; second].
Proof.
  unfold get_raw_calibration_table at 1.
  cbn [new _coefficients_table_raw _hw_monitor].
  destruct (hw_monitor_send first (length [])) as [err'|got]; [|done].
  intros [= <-]. split; [done|].
  unfold get_raw_calibration_table. cbn [_coefficients_table_raw _hw_monitor].
  by destruct (hw_monitor_send second _).
Qed.

(** C6.  On a new device object whose first [get_raw_calibration_table]
    call returns bytes, that call sends one hardware-monitor request; a
    second call, for any table id, returns the same bytes and sends none,
    and so does every later call: the one request stays the only one. *)
Theorem calibration_table_fetched_once
    (first second : ds.calibration_table_id) (bytes : list byte) (dev : t) :
  get_raw_calibration_table hw_monitor_send first new = (inr bytes, dev) →
  get_raw_calibration_table hw_monitor_send second dev = (inr bytes, dev)
  ∧ _hw_monitor dev = [first]
  ∧ ∀ later : list ds.calibration_table_id,
      calls hw_monitor_send later dev
      = (replicate (length later) (inr bytes), dev).
Proof.
  unfold get_raw_calibration_table at 1. cbn [new _coefficients_table_raw _hw_monitor].
  destruct (hw_monitor_send first (length [])) as [err|got]; [done|].
  intros [= -> <-]. split; [|split].
  - by apply get_raw_calibration_table_cached.
  - done.
  - intros later. by apply calls_cached.
Qed.

End calibration_cache_facts.

Lemma calibration_table_fetched_once_witness :
  ds5_camera.get_raw_calibration_table (λ _ _, inr [x01; x02]) 31
    {| ds5_camera._coefficients_table_raw := Some [x01; x02];
       ds5_camera._hw_monitor := [25] |}
  = (inr [x01; x02],
     {| ds5_camera._coefficients_table_raw := Some [x01; x02];
        ds5_camera._hw_monitor := [25] |}).
Proof.
  refine (proj1 (calibration_table_fetched_once (λ _ _, inr [x01; x02])
    25 31 [x01; x02] _ _)).
  reflexivity.
Defined.

(** ** Emitter option *)

Section emitter_option_facts.
Import emitter_option.

Lemma Qtruncate_inject_Z (q : Q) (n : Z) : (q == inject_Z n)%Q → Qtruncate q = n.
Proof.
  intros Hq. unfold Qtruncate.
  rewrite (Qfloor_comp _ _ Hq), (Qceiling_comp _ _ Hq), Qfloor_Z, Qceiling_Z.
  by destruct (Qle_bool 0 q).
Qed.

Lemma Qtruncate_nonneg (q : Q) : (0 <= q)%Q → Qtruncate q = Qfloor q.
Proof.
  intros Hq. unfold Qtruncate. by apply Qle_bool_iff in Hq as ->.
Qed.

Lemma Qfloor_in_0_3 (q : Q) : (0 <= q < 3)%Q → 0 ≤ Qfloor q ≤ 2.
Proof.
  intros [Hlo Hhi]. split.
  - apply (Qfloor_resp_le 0 q Hlo).
  - cut (Qfloor q < 3); [lia|].
    rewrite Zlt_Qlt. eapply Qle_lt_trans; [apply Qfloor_le|done].
Qed.

Lemma get_value_description_cases (val : float) :
  get_value_description val
  = if decide (static_cast_int val = 0) then returns "Off"%string
    else if decide (static_cast_int val = 1) then returns "On"%string
    else if decide (static_cast_int val = 2) then returns "Auto"%string
    else throws (invalid_value_exception "value not found").
Proof.
  unfold get_value_description.
  destruct (static_cast_int val) as [|[[]|[]|]|]; reflexivity.
Qed.

Lemma static_cast_int_wide (val : float) (q : Q) :
  float_to_Q val = Some q →
  static_cast_int val = Qtruncate q
  ∨ (static_cast_int val = machine.INT_MIN
     ∧ ¬ (machine.INT_MIN ≤ Qtruncate q ≤ machine.INT_MAX)).
Proof.
  intros Hq. unfold static_cast_int. rewrite Hq. cbv zeta.
  destruct (machine.INT_MIN <=? Qtruncate q) eqn:Hlo;
    destruct (Qtruncate q <=? machine.INT_MAX) eqn:Hhi; cbn [andb];
    [by left|right..]; (split; [done|]); lia.
Qed.

(** C7.  On an input that is the integer [n], [get_value_description]
    returns "Off" for 0, "On" for 1, "Auto" for 2 and throws
    [invalid_value_exception] for every other [n]; it is a function of
    its argument alone. *)
Theorem get_value_description_of_integer (val : float) (q : Q) (n : Z) :
  float_to_Q val = Some q → (q == inject_Z n)%Q →
  get_value_description val
  = match n with
    | 0 => returns "Off"%string
    | 1 => returns "On"%string
    | 2 => returns "Auto"%string
    | _ => throws (invalid_value_exception "value not found")
    end.
Proof.
  intros Hval Hq. rewrite get_value_description_cases.
  apply Qtruncate_inject_Z in Hq.
  destruct (static_cast_int_wide val q Hval) as [->|[-> Hout]]; rewrite Hq in *.
  - destruct n as [|[[]|[]|]|]; reflexivity.
  - unfold machine.INT_MIN, machine.INT_MAX in *.
    destruct n as [|[[]|[]|]|]; (reflexivity || lia).
Qed.

Lemma get_value_description_of_integer_witness :
  get_value_description samples.f_3
  = throws (invalid_value_exception "value not found")
  ∧ get_value_description samples.f_minus_1
    = throws (invalid_value_exception "value not found").
Proof.
  split.
  - refine (get_value_description_of_integer samples.f_3 _ 3 _ _);
      reflexivity.
  - refine (get_value_description_of_integer samples.f_minus_1 _ (-1) _ _);
      reflexivity.
Defined.

(** C10.  The input is a [float] and only its truncation is looked up:
    every input [0 <= val < 3], integer or not, returns the string of its
    integer part, and [invalid_value_exception] is thrown exactly when the
    truncated input is none of 0, 1, 2. *)
Theorem get_value_description_truncates (val : float) (q : Q) :
  float_to_Q val = Some q → (0 <= q < 3)%Q →
  static_cast_int val = Qfloor q
  ∧ get_value_description val
    = returns (match Qfloor q with 0 => "Off" | 1 => "On" | _ => "Auto" end)%string
  ∧ ∀ other : float,
      get_value_description other
      = throws (invalid_value_exception "value not found")
      ↔ ¬ (0 ≤ static_cast_int other ≤ 2).
Proof.
  intros Hval Hq.
  pose proof (Qfloor_in_0_3 q Hq) as Hfloor.
  assert (Hcast : static_cast_int val = Qfloor q).
  { destruct (static_cast_int_wide val q Hval) as [->|[_ Hout]].
    - by apply Qtruncate_nonneg, Hq.
    - rewrite Qtruncate_nonneg in Hout by apply Hq.
      unfold machine.INT_MIN, machine.INT_MAX in Hout. lia. }
  split; [done|]. split.
  - rewrite get_value_description_cases, Hcast.
    destruct (Qfloor q) as [|[[]|[]|]|]; (reflexivity || lia).
  - intros other. rewrite get_value_description_cases.
    repeat case_decide; split; (done || lia).
Qed.

Lemma get_value_description_truncates_witness :
  get_value_description samples.f_2_9 = returns "Auto"%string
  ∧ get_value_description samples.f_0_5 = returns "Off"%string.
Proof.
  split.
  - refine (proj1 (proj2 (get_value_description_truncates samples.f_2_9
      (Qmake 12163482 4194304) _ _)));
      [reflexivity|].
    split; vm_compute; [discriminate|reflexivity].
  - refine (proj1 (proj2 (get_value_description_truncates samples.f_0_5
      (Qmake 8388608 16777216) _ _)));
      [reflexivity|].
    split; vm_compute; [discriminate|reflexivity].
Defined.

(** Truncation is toward zero: [-0.5] reads as 0. *)
Example get_value_description_minus_half :
  get_value_description samples.f_minus_0_5 = returns "Off"%string.
Proof. reflexivity. Qed.

End emitter_option_facts.

(** * Further properties of the code *)

(** ** Sessions on a timestamp reader *)

Lemma reset_loop_value_initialised {n : nat} (r : channels n) :
  reset_loop r = value_initialised.
Proof.
  assert (H : ∀ i, cleared (reset_loop r) i) by apply reset_loop_cleared.
  destruct (reset_loop r) as [s t l c]. unfold cleared in H. simpl in H.
  unfold value_initialised.
  f_equal; apply vec_eq; intros i; rewrite vlookup_replicate; apply H.
Qed.

Lemma wrap_int64_mod z : machine.wrap_int64 z mod 2 ^ 64 = z mod 2 ^ 64.
Proof. apply to_uint64_wrap_int64. Qed.

Lemma wrap_int64_small z : - 2 ^ 63 ≤ z < 2 ^ 63 → machine.wrap_int64 z = z.
Proof.
  intros Hz. unfold machine.wrap_int64. rewrite Z.mod_small; lia.
Qed.

Lemma wrap_int64_add a b :
  machine.wrap_int64 (machine.wrap_int64 a + b) = machine.wrap_int64 (a + b).
Proof.
  unfold machine.wrap_int64.
  replace ((a + 2 ^ 63) mod 2 ^ 64 - 2 ^ 63 + b + 2 ^ 63)
    with ((a + 2 ^ 63) mod 2 ^ 64 + b) by lia.
  replace (a + b + 2 ^ 63) with (a + 2 ^ 63 + b) by lia.
  by rewrite Zplus_mod_idemp_l.
Qed.

Section session_facts.
Import frame_timestamp_reader session.
Implicit Types (o : t) (c : channel) (cs : list call).
Implicit Types (calls : list (request_mapping * pointer)).

Lemma reset_is_new o : reset o = new (class_of o).
Proof.
  destruct o as [r|r]; cbn [reset new class_of]; f_equal;
    unfold ds5_timestamp_reader.reset, ds5_timestamp_reader.new,
      ds5_hid_timestamp_reader.reset, ds5_hid_timestamp_reader.new;
    by rewrite !reset_loop_value_initialised.
Qed.

Lemma exec_cons call cs o :
  exec (call :: cs) o
  = ((step call o).1 :: (exec cs (step call o).2).1, (exec cs (step call o).2).2).
Proof.
  cbn [exec]. destruct (step call o) as [r o']. cbn [fst snd].
  by destruct (exec cs o') as [rs o''].
Qed.

Lemma exec_app cs1 cs2 o :
  exec (cs1 ++ cs2) o
  = ((exec cs1 o).1 ++ (exec cs2 (exec cs1 o).2).1, (exec cs2 (exec cs1 o).2).2).
Proof.
  revert o. induction cs1 as [|call cs1 IH]; intros o.
  - cbn [app exec fst snd]. by destruct (exec cs2 o).
  - rewrite <- app_comm_cons, !exec_cons, IH. reflexivity.
Qed.

Lemma class_of_step call o : class_of (step call o).2 = class_of o.
Proof. by destruct call, o. Qed.

Lemma class_of_exec cs o : class_of (exec cs o).2 = class_of o.
Proof.
  revert o. induction cs as [|call cs IH]; intros o; [done|].
  rewrite exec_cons. cbn [snd]. by rewrite IH, class_of_step.
Qed.

(** X1.  [reset] puts a reader back into the state its constructor
    produces: whatever was called before a [reset], the calls after it
    return what they return on a newly constructed reader of the same
    class, and leave the reader in the same state. *)
Theorem reset_forgets_history o (before after : list call) :
  reset o = new (class_of o)
  ∧ (exec (before ++ call_reset :: after) o).1
    = (exec before o).1 ++ reset_done :: (exec after (new (class_of o))).1
  ∧ (exec (before ++ call_reset :: after) o).2
    = (exec after (new (class_of o))).2.
Proof.
  split; [apply reset_is_new|].
  rewrite exec_app, exec_cons. cbn [step fst snd].
  by rewrite reset_is_new, class_of_exec.
Qed.

(** The values a run returns on one channel, from any reader state: the
    counter counts on modulo [2 ^ 64] from the value it holds. *)
Lemma returned_on_any c calls o :
  returned_on c calls o
  = (λ j : nat, (counter (state o) !!! c + Z.of_nat j) mod 2 ^ 64)
    <$> seq 1 (selecting c calls o).
Proof.
  revert o. induction calls as [|[mode frame] calls IH]; intros o; [done|].
  rewrite returned_on_cons, selecting_cons, IH, selecting_step.
  destruct (decide (selected o mode = c)) as [Hc|Hc].
  - cbn [Nat.add seq fmap list_fmap app]. f_equal.
    + by rewrite get_frame_counter_value, Hc.
    + rewrite <- (fmap_S_seq 1), <- list_fmap_compose.
      apply list_fmap_ext. intros _ j _. cbn [compose].
      rewrite <- Hc at 1. rewrite get_frame_counter_same, Hc.
      rewrite <- Zplus_mod_idemp_l, wrap_int64_mod, Zplus_mod_idemp_l.
      f_equal. lia.
  - cbn [Nat.add app]. apply list_fmap_ext. intros _ j _.
    by rewrite get_frame_counter_other.
Qed.

(** X2.  From any reader state, the [j]-th [get_frame_counter] call that
    selects a channel returns the channel's counter plus [j], modulo
    [2 ^ 64]; calls that select the other channel do not enter into it. *)
Theorem frame_counter_modular_law o c calls (j : nat) :
  returned_on c calls o !! j
  = if decide (j < selecting c calls o)%nat
    then Some ((counter (state o) !!! c + Z.of_nat (S j)) mod 2 ^ 64)
    else None.
Proof.
  rewrite returned_on_any, list_lookup_fmap.
  destruct (decide (j < selecting c calls o)%nat) as [Hj|Hj].
  - by rewrite lookup_seq_lt.
  - by rewrite lookup_seq_ge by lia.
Qed.

Lemma run_cons_state mode frame calls o :
  (run ((mode, frame) :: calls) o).2
  = (run calls (get_frame_counter mode frame o).2).2.
Proof.
  cbn [run]. destruct (get_frame_counter mode frame o) as [v o'].
  cbn [snd]. by destruct (run calls o') as [vs o''].
Qed.

Lemma wrap_int64_range z : - 2 ^ 63 ≤ machine.wrap_int64 z < 2 ^ 63.
Proof.
  unfold machine.wrap_int64.
  pose proof (Z.mod_pos_bound (z + 2 ^ 63) (2 ^ 64)). lia.
Qed.

Lemma get_frame_counter_in_range mode frame o :
  counters_in_range o → counters_in_range (get_frame_counter mode frame o).2.
Proof.
  intros H c. destruct (decide (selected o mode = c)) as [<-|Hc].
  - rewrite get_frame_counter_same. apply wrap_int64_range.
  - by rewrite get_frame_counter_other.
Qed.

Lemma new_in_range cls : counters_in_range (new cls).
Proof.
  intros c. destruct (new_cleared cls c) as (_ & _ & _ & Hc).
  rewrite Hc. lia.
Qed.

Lemma run_final_counter c calls o :
  counters_in_range o →
  counter (state (run calls o).2) !!! c
  = machine.wrap_int64
      (counter (state o) !!! c + Z.of_nat (selecting c calls o)).
Proof.
  revert o. induction calls as [|[mode frame] calls IH]; intros o Ho.
  - cbn [run snd]. unfold selecting. cbn [filter list_filter length].
    rewrite Z.add_0_r. symmetry. by apply wrap_int64_small.
  - rewrite run_cons_state, selecting_cons, IH, selecting_step
      by by apply get_frame_counter_in_range.
    destruct (decide (selected o mode = c)) as [Hc|Hc].
    + rewrite <- Hc at 1. rewrite get_frame_counter_same, Hc, wrap_int64_add.
      f_equal. lia.
    + rewrite get_frame_counter_other by done. f_equal.
  Qed.

Lemma selecting_total calls o :
  (selecting 0%fin calls o + selecting 1%fin calls o)%nat = length calls.
Proof.
  induction calls as [|[mode frame] calls IH]; [done|].
  rewrite !selecting_cons. cbn [length]. rewrite <- IH.
  generalize (selected o mode). intros i.
  inv_fin i; [|intros i; inv_fin i; [|intros i; inv_fin i]];
    repeat case_decide; (done || lia).
Qed.

Lemma selecting_le c calls o : (selecting c calls o ≤ length calls)%nat.
Proof. unfold selecting. apply length_filter. Qed.

(** X3.  Each [get_frame_counter] call advances exactly one channel: on a
    newly constructed reader, after fewer than [2 ^ 63] calls, the counter
    of each channel is the number of calls that selected it, and the two
    counters add up to the number of calls made. *)
Theorem frame_counters_add_up cls calls :
  Z.of_nat (length calls) < 2 ^ 63 →
  (∀ c, counter (state (run calls (new cls)).2) !!! c
        = Z.of_nat (selecting c calls (new cls)))
  ∧ counter (state (run calls (new cls)).2) !!! 0%fin
    + counter (state (run calls (new cls)).2) !!! 1%fin
    = Z.of_nat (length calls).
Proof.
  intros Hlen.
  assert (Hc : ∀ c, counter (state (run calls (new cls)).2) !!! c
                    = Z.of_nat (selecting c calls (new cls))).
  { intros c. rewrite run_final_counter by apply new_in_range.
    destruct (new_cleared cls c) as (_ & _ & _ & H0). rewrite H0.
    pose proof (selecting_le c calls (new cls)).
    apply wrap_int64_small. lia. }
  split; [done|].
  rewrite !Hc, <- Nat2Z.inj_add. f_equal. apply selecting_total.
Qed.

Lemma frame_counters_add_up_witness :
  counter (state (run [(samples.depth_z16, 0%N); (samples.infrared_y8, 0%N);
                       (samples.depth_z16, 0%N)]
                   (new ds5_timestamp_reader)).2) !!! 0%fin
  + counter (state (run [(samples.depth_z16, 0%N); (samples.infrared_y8, 0%N);
                         (samples.depth_z16, 0%N)]
                     (new ds5_timestamp_reader)).2) !!! 1%fin
  = 3.
Proof.
  refine (proj2 (frame_counters_add_up ds5_timestamp_reader
    [(samples.depth_z16, 0%N); (samples.infrared_y8, 0%N);
     (samples.depth_z16, 0%N)] _)).
  vm_compute. reflexivity.
Defined.

Lemma step_keeps_unused_members call o :
  unused_members_cleared o → unused_members_cleared (step call o).2.
Proof.
  intros H c. destruct call as [|mode mem frame|mode mem frame|mode frame].
  - cbn [step snd]. destruct (reset_cleared o c) as (? & ? & ? & _). done.
  - destruct o; apply H.
  - destruct o; cbn [step get_frame_timestamp]; [apply H|].
    unfold ds5_hid_timestamp_reader.get_frame_timestamp.
    case_match; apply H.
  - destruct o; apply H.
Qed.

(** X4.  [started], [total] and [last_timestamp] are written by [reset]
    only: in every state a reader reaches from its constructor, through
    any calls of its four methods, they are [false], 0 and 0 on every
    channel. *)
Theorem unused_members_stay_cleared cls cs c :
  started (state (exec cs (new cls)).2) !!! c = false
  ∧ total (state (exec cs (new cls)).2) !!! c = 0
  ∧ last_timestamp (state (exec cs (new cls)).2) !!! c = 0.
Proof.
  cut (∀ o, unused_members_cleared o → unused_members_cleared (exec cs o).2).
  { intros H. apply H. intros c'.
    destruct (new_cleared cls c') as (? & ? & ? & _). done. }
  induction cs as [|call cs IH]; intros o Ho; [done|].
  rewrite exec_cons. cbn [snd]. by apply IH, step_keeps_unused_members.
Qed.

Lemma step_read_only call o :
  is_reset call = false →
  match call with
  | call_get_frame_counter mode frame =>
      step call o = prod_map frame_counter id (get_frame_counter mode frame o)
  | _ => (step call o).2 = o ∧ counters [(step call o).1] = []
  end.
Proof.
  intros Hcall. destruct call as [|mode mem frame|mode mem frame|mode frame];
    [done| | |done].
  - by destruct o.
  - destruct o; cbn [step get_frame_timestamp]; [done|].
    unfold ds5_hid_timestamp_reader.get_frame_timestamp. by case_match.
Qed.

(** X5.  [validate_frame] and [get_frame_timestamp] change nothing: in a
    session without [reset], the [get_frame_counter] calls return the
    values, and leave the reader in the state, they would with every
    [validate_frame] and [get_frame_timestamp] call taken out. *)
Theorem read_only_calls_are_transparent cs o :
  Forall (λ call, is_reset call = false) cs →
  counters (exec cs o).1 = (run (counter_calls cs) o).1.*2
  ∧ (exec cs o).2 = (run (counter_calls cs) o).2.
Proof.
  revert o. induction cs as [|call cs IH]; intros o Hcs; [done|].
  apply Forall_cons in Hcs as [Hcall Hcs].
  rewrite exec_cons. cbn [fst snd].
  pose proof (step_read_only call o Hcall) as Hstep.
  destruct call as [|mode mem frame|mode mem frame|mode frame]; [done|..].
  - destruct Hstep as [-> Hnone]. destruct (IH o Hcs) as [IH1 IH2].
    split; [|done]. unfold counters in *. cbn [omap list_omap] in *.
    by destruct (step _ o).1.
  - destruct Hstep as [-> Hnone]. destruct (IH o Hcs) as [IH1 IH2].
    split; [|done]. unfold counters in *. cbn [omap list_omap] in *.
    by destruct (step _ o).1.
  - rewrite Hstep. unfold counter_calls. cbn [omap list_omap].
    fold (counter_calls cs). rewrite run_cons, run_cons_state.
    destruct (IH (get_frame_counter mode frame o).2 Hcs) as [IH1 IH2].
    destruct (get_frame_counter mode frame o) as [v o'].
    cbn [prod_map fst snd id] in *. split; [|done].
    unfold counters in *. cbn [omap list_omap fmap list_fmap snd].
    by rewrite IH1.
Qed.

Lemma read_only_calls_are_transparent_witness :
  counters
    (exec [call_validate_frame samples.depth_z16
             (samples.memory_of samples.early_record) 0%N;
           call_get_frame_counter samples.depth_z16 0%N;
           call_get_frame_timestamp samples.depth_z16
             (samples.memory_of samples.early_record) 0%N;
           call_get_frame_counter samples.depth_z16 0%N]
       (new ds5_timestamp_reader)).1
  = [1; 2].
Proof.
  refine (proj1 (read_only_calls_are_transparent
    [call_validate_frame samples.depth_z16
       (samples.memory_of samples.early_record) 0%N;
     call_get_frame_counter samples.depth_z16 0%N;
     call_get_frame_timestamp samples.depth_z16
       (samples.memory_of samples.early_record) 0%N;
     call_get_frame_counter samples.depth_z16 0%N]
    (new ds5_timestamp_reader) _)).
  repeat constructor.
Defined.

End session_facts.

(** ** What the readers read of a frame *)

Lemma scan_nonzero_ext mem mem' it it' left :
  (∀ i : N, (i < N.of_nat left)%N → mem (it + i)%N = mem' (it' + i)%N) →
  scan_nonzero mem it left = scan_nonzero mem' it' left.
Proof.
  revert it it'. induction left as [|left IH]; intros it it' H; [done|].
  cbn [scan_nonzero].
  assert (H0 : mem it = mem' it').
  { specialize (H 0%N). rewrite !N.add_0_r in H. apply H. lia. }
  rewrite H0. destruct (byte_nonzero (mem' it')); [done|].
  apply IH. intros i Hi.
  replace (N.succ it + i)%N with (it + N.succ i)%N by lia.
  replace (N.succ it' + i)%N with (it' + N.succ i)%N by lia.
  apply H. lia.
Qed.

Lemma load_le_ext mem mem' p p' nbytes :
  (∀ i : N, (i < N.of_nat nbytes)%N → mem (p + i)%N = mem' (p' + i)%N) →
  load_le mem p nbytes = load_le mem' p' nbytes.
Proof.
  revert p p'. induction nbytes as [|k IH]; intros p p' H; [done|].
  cbn [load_le].
  assert (H0 : mem p = mem' p').
  { specialize (H 0%N). rewrite !N.add_0_r in H. apply H. lia. }
  rewrite H0. f_equal. f_equal.
  apply IH. intros i Hi.
  replace (N.succ p + i)%N with (p + N.succ i)%N by lia.
  replace (N.succ p' + i)%N with (p' + N.succ i)%N by lia.
  apply H. lia.
Qed.

(** X6.  [validate_frame] reads the first [get_image_size(width, height)]
    bytes of the frame and nothing else: two calls, on any two readers and
    at any two addresses, answer alike when those bytes are alike. *)
Theorem validate_frame_reads_only_the_frame
    (o o' : frame_timestamp_reader.t) (mode : request_mapping)
    (mem mem' : memory) (frame frame' : pointer) :
  (∀ i : N,
     (i < get_image_size (pf mode) (width (profile mode))
            (height (profile mode)))%N →
     mem (frame + i)%N = mem' (frame' + i)%N) →
  (frame_timestamp_reader.validate_frame mode mem frame o).1
  = (frame_timestamp_reader.validate_frame mode mem' frame' o').1.
Proof.
  intros H.
  destruct o as [r|r], o' as [r'|r']; cbn [frame_timestamp_reader.validate_frame];
    unfold ds5_timestamp_reader.validate_frame,
      ds5_hid_timestamp_reader.validate_frame; cbn [prod_map fst id];
    apply scan_nonzero_ext; intros i Hi; apply H; lia.
Qed.

Lemma validate_frame_reads_only_the_frame_witness :
  (frame_timestamp_reader.validate_frame frames.two_pixels frames.here 0%N
     (frame_timestamp_reader.new frame_timestamp_reader.ds5_timestamp_reader)).1
  = (frame_timestamp_reader.validate_frame frames.two_pixels frames.there 1%N
       (frame_timestamp_reader.new
          frame_timestamp_reader.ds5_hid_timestamp_reader)).1.
Proof.
  apply validate_frame_reads_only_the_frame.
  intros i Hi. change (i < 2)%N in Hi.
  destruct i as [|[p|p|]]; [reflexivity|lia|lia|reflexivity].
Defined.

(** X7.  The inertial-stream reader's [get_frame_timestamp] looks at
    [width * height] and at bytes 6 to 13 of the payload only: the format
    code, the frame rate, the reader's state and every other byte of the
    payload have no part in the result. *)
Theorem hid_timestamp_reads_bytes_6_to_13 (mode mode' : request_mapping)
    (mem mem' : memory) (frame frame' : pointer)
    (r r' : ds5_hid_timestamp_reader.t) :
  ds5_hid_timestamp_reader.frame_size mode
  = ds5_hid_timestamp_reader.frame_size mode' →
  (∀ i : N, (6 ≤ i < 14)%N → mem (frame + i)%N = mem' (frame' + i)%N) →
  (ds5_hid_timestamp_reader.get_frame_timestamp mode mem frame r).1
  = (ds5_hid_timestamp_reader.get_frame_timestamp mode' mem' frame' r').1.
Proof.
  intros Hsize Hbytes.
  unfold ds5_hid_timestamp_reader.get_frame_timestamp. rewrite Hsize.
  destruct (_ =? _); [|done]. cbn [fst]. f_equal.
  unfold load_uint64, ds5_hid_timestamp_reader.timestamp_offset.
  apply load_le_ext. intros i Hi.
  replace (frame + 6 + i)%N with (frame + (6 + i))%N by lia.
  replace (frame' + 6 + i)%N with (frame' + (6 + i))%N by lia.
  apply Hbytes. lia.
Qed.

Lemma hid_timestamp_reads_bytes_6_to_13_witness :
  (ds5_hid_timestamp_reader.get_frame_timestamp samples.gyro
     (samples.memory_of samples.early_record) 0%N
     ds5_hid_timestamp_reader.new).1
  = (ds5_hid_timestamp_reader.get_frame_timestamp samples.accel
       (samples.memory_of frames.early_record_other_header) 0%N
       ds5_hid_timestamp_reader.new).1.
Proof.
  apply hid_timestamp_reads_bytes_6_to_13; [reflexivity|].
  intros i Hi.
  assert (Hcases : (i = 6 ∨ i = 7 ∨ i = 8 ∨ i = 9 ∨ i = 10 ∨ i = 11
                    ∨ i = 12 ∨ i = 13)%N) by lia.
  destruct Hcases as [H|[H|[H|[H|[H|[H|[H|H]]]]]]]; subst i; reflexivity.
Defined.

(** ** Supported products *)

(** X8.  The products [get_subdevice_count] knows are the products listed
    in [rs4xx_sku_pid]: the call returns a count, 1 or 3, exactly when the
    first image endpoint's product id is in that list, and throws exactly
    when there is a first image endpoint whose product id is not. *)
Theorem get_subdevice_count_knows_rs4xx_sku_pid (ids : ds.product_ids)
    (info : ds5_info.t) :
  ((ds5_info.get_subdevice_count ids info = returns 1
    ∨ ds5_info.get_subdevice_count ids info = returns 3)
   ↔ ∃ d, front (ds5_info._depth info) = Some d
          ∧ uvc.pid d ∈ rs4xx_sku_pid ids)
  ∧ ((∃ e, ds5_info.get_subdevice_count ids info = throws e)
     ↔ ∃ d, front (ds5_info._depth info) = Some d
            ∧ uvc.pid d ∉ rs4xx_sku_pid ids)
  ∧ match ds5_info.get_subdevice_count ids info with
    | returns n => n = 1 ∨ n = 3
    | _ => True
    end.
Proof.
  unfold ds5_info.get_subdevice_count.
  destruct (front (ds5_info._depth info)) as [d|].
  - assert (Hswitch :
      (uvc.pid d ∈ rs4xx_sku_pid ids
       ∧ (ds5_info.subdevice_count_of ids (uvc.pid d) = returns 1
          ∨ ds5_info.subdevice_count_of ids (uvc.pid d) = returns 3))
      ∨ ((uvc.pid d ∉ rs4xx_sku_pid ids)
         ∧ ∃ e, ds5_info.subdevice_count_of ids (uvc.pid d) = throws e)).
    { unfold ds5_info.subdevice_count_of, rs4xx_sku_pid.
      rewrite !elem_of_cons, elem_of_nil.
      repeat match goal with
        | |- context [?a =? ?b] => destruct (Z.eqb_spec a b)
        end; [left; tauto..|right].
      split; [tauto|by eexists]. }
    destruct Hswitch as [[Hin Hret]|[Hnot [e He]]].
    + split; [|split].
      * split; [by exists d|done].
      * split; [intros [e He]; destruct Hret; congruence|].
        by intros (d' & [= <-] & Hnot).
      * by destruct Hret as [-> | ->]; [left|right].
    + rewrite He. split; [|split; [|done]].
      * split; [by intros [|]|]. by intros (d' & [= <-] & Hin).
      * split; [by exists d|by exists e].
  - split; [|split]; [| |done].
    + split; [by intros [|]|by intros (d & ? & _)].
    + split; [by intros [e ?]|by intros (d & ? & _)].
Qed.

(** ** The inputs of [get_value_description] *)

From Stdlib Require Import Lqa.

Lemma Qtruncate_bounds (q : Q) :
  ((0 <= q)%Q ∧ 0 ≤ Qtruncate q ∧ (inject_Z (Qtruncate q) <= q)%Q
   ∧ (q < inject_Z (Qtruncate q + 1))%Q)
  ∨ ((q < 0)%Q ∧ Qtruncate q ≤ 0 ∧ (inject_Z (Qtruncate q - 1) < q)%Q
     ∧ (q <= inject_Z (Qtruncate q))%Q).
Proof.
  unfold Qtruncate. destruct (Qle_bool 0 q) eqn:E.
  - left. apply Qle_bool_iff in E. repeat split; [done| | |].
    + apply (Qfloor_resp_le 0 q E).
    + apply Qfloor_le.
    + apply Qlt_floor.
  - right. assert (Hneg : (q < 0)%Q).
    { apply Qnot_le_lt. intros H. apply Qle_bool_iff in H. congruence. }
    repeat split; [done| | |].
    + change 0 with (Qceiling 0). apply Qceiling_resp_le. by apply Qlt_le_weak.
    + apply Qceiling_lt.
    + apply Qle_ceiling.
Qed.

Lemma Q_lt_Z (a b : Z) (q : Q) :
  (inject_Z a <= q)%Q → (q < inject_Z b)%Q → a < b.
Proof. intros H1 H2. rewrite Zlt_Qlt. by eapply Qle_lt_trans. Qed.

Lemma Q_lt_Z' (a b : Z) (q : Q) :
  (inject_Z a < q)%Q → (q <= inject_Z b)%Q → a < b.
Proof. intros H1 H2. rewrite Zlt_Qlt. by eapply Qlt_le_trans. Qed.

Lemma Qtruncate_eq_0 q : Qtruncate q = 0 ↔ (inject_Z (-1) < q ∧ q < inject_Z 1)%Q.
Proof.
  destruct (Qtruncate_bounds q) as [(H0 & Hn & Hlo & Hhi)|(H0 & Hn & Hlo & Hhi)].
  - split.
    + intros E. rewrite E in *. split; [|done].
      eapply Qlt_le_trans; [|exact H0]. done.
    + intros [_ H1]. pose proof (Q_lt_Z _ _ _ Hlo H1). lia.
  - split.
    + intros E. rewrite E in *. split; [done|].
      eapply Qlt_trans; [exact H0|done].
    + intros [H1 _]. pose proof (Q_lt_Z' _ _ _ H1 Hhi). lia.
Qed.

Lemma Qtruncate_eq_pos q k :
  0 < k → Qtruncate q = k ↔ (inject_Z k <= q ∧ q < inject_Z (k + 1))%Q.
Proof.
  intros Hk.
  destruct (Qtruncate_bounds q) as [(H0 & Hn & Hlo & Hhi)|(H0 & Hn & Hlo & Hhi)].
  - split.
    + by intros <-.
    + intros [H1 H2]. pose proof (Q_lt_Z _ _ _ Hlo H2).
      pose proof (Q_lt_Z _ _ _ H1 Hhi). lia.
  - split; [lia|]. intros [H1 _]. exfalso.
    assert (k < 0); [|lia]. rewrite Zlt_Qlt. by eapply Qle_lt_trans.
Qed.

Lemma get_value_description_by_cast (val : float) :
  (emitter_option.get_value_description val = returns "Off"%string
   ↔ static_cast_int val = 0)
  ∧ (emitter_option.get_value_description val = returns "On"%string
     ↔ static_cast_int val = 1)
  ∧ (emitter_option.get_value_description val = returns "Auto"%string
     ↔ static_cast_int val = 2)
  ∧ (emitter_option.get_value_description val
     = throws (invalid_value_exception "value not found")
     ↔ ¬ (0 ≤ static_cast_int val ≤ 2)).
Proof.
  rewrite get_value_description_cases.
  repeat split; repeat case_decide; intros; (done || lia).
Qed.

Lemma static_cast_int_small (val : float) (q : Q) (k : Z) :
  float_to_Q val = Some q → 0 ≤ k ≤ 2 →
  static_cast_int val = k ↔ Qtruncate q = k.
Proof.
  intros Hq Hk.
  destruct (static_cast_int_wide val q Hq) as [->|[-> Hout]]; [done|].
  unfold machine.INT_MIN, machine.INT_MAX in *. lia.
Qed.

(** X9.  Which inputs give which answer: a finite [val] reads "Off" exactly
    when [-1 < val < 1] (negative fractions included), "On" exactly when
    [1 <= val < 2], "Auto" exactly when [2 <= val < 3], and
    [get_value_description] throws exactly when [val <= -1] or
    [3 <= val]. *)
Theorem get_value_description_intervals (val : float) (q : Q) :
  float_to_Q val = Some q →
  (emitter_option.get_value_description val = returns "Off"%string
   ↔ (-1 < q ∧ q < 1)%Q)
  ∧ (emitter_option.get_value_description val = returns "On"%string
     ↔ (1 <= q ∧ q < 2)%Q)
  ∧ (emitter_option.get_value_description val = returns "Auto"%string
     ↔ (2 <= q ∧ q < 3)%Q)
  ∧ (emitter_option.get_value_description val
     = throws (invalid_value_exception "value not found")
     ↔ (q <= -1 ∨ 3 <= q)%Q).
Proof.
  intros Hq.
  destruct (get_value_description_by_cast val) as (Hoff & Hon & Hauto & Hthrow).
  pose proof (static_cast_int_small val q 0 Hq ltac:(lia)) as H0.
  pose proof (static_cast_int_small val q 1 Hq ltac:(lia)) as H1.
  pose proof (static_cast_int_small val q 2 Hq ltac:(lia)) as H2.
  pose proof (Qtruncate_eq_0 q) as T0.
  pose proof (Qtruncate_eq_pos q 1 ltac:(lia)) as T1.
  pose proof (Qtruncate_eq_pos q 2 ltac:(lia)) as T2.
  change (inject_Z (-1)) with (-1)%Q in T0.
  change (inject_Z 1) with 1%Q in T0, T1.
  change (inject_Z (1 + 1)) with 2%Q in T1.
  change (inject_Z 2) with 2%Q in T2.
  change (inject_Z (2 + 1)) with 3%Q in T2.
  rewrite Hoff, Hon, Hauto, Hthrow, H0, H1, H2, T0, T1, T2.
  repeat split; try tauto.
  - intros Hnot.
    destruct (Qlt_le_dec (-1) q) as [Ha|Ha]; [|by left].
    destruct (Qlt_le_dec q 3) as [Hb|Hb]; [|by right].
    exfalso. apply Hnot.
    assert (Hk : static_cast_int val = 0 ∨ static_cast_int val = 1
                 ∨ static_cast_int val = 2); [|lia].
    rewrite H0, H1, H2, T0, T1, T2.
    destruct (Qlt_le_dec q 1); [tauto|].
    destruct (Qlt_le_dec q 2); tauto.
  - intros Hout Hin.
    assert (Hk : static_cast_int val = 0 ∨ static_cast_int val = 1
                 ∨ static_cast_int val = 2) by lia.
    rewrite H0, H1, H2, T0, T1, T2 in Hk. lra.
Qed.

Lemma get_value_description_intervals_witness :
  emitter_option.get_value_description samples.f_minus_0_5
  = returns "Off"%string.
Proof.
  refine (proj2 (proj1 (get_value_description_intervals samples.f_minus_0_5
    (Qmake (-8388608) 16777216) _)) _).
  - reflexivity.
  - split; vm_compute; reflexivity.
Defined.

(** ** How far a timestamp is from the integer in the payload *)

Lemma shr_1_nonneg (a : Z) (r s : bool) :
  0 ≤ a →
  shr_1 {| shr_m := a; shr_r := r; shr_s := s |}
  = {| shr_m := Z.div2 a; shr_r := Z.odd a; shr_s := r || s |}.
Proof. intros Ha. destruct a as [|[p|p|]|p]; (done || lia). Qed.

Lemma iter_pos_nat {A} (f : A → A) (p : positive) (x : A) :
  SpecFloat.iter_pos f p x = Nat.iter (Pos.to_nat p) f x.
Proof.
  revert x. induction p as [p IH|p IH|]; intros x; cbn [SpecFloat.iter_pos].
  - rewrite !IH.
    replace (Pos.to_nat p~1) with (S (Pos.to_nat p + Pos.to_nat p)) by lia.
    by rewrite Nat.iter_succ_r, Nat.iter_add.
  - rewrite !IH.
    replace (Pos.to_nat p~0) with (Pos.to_nat p + Pos.to_nat p)%nat by lia.
    by rewrite Nat.iter_add.
  - done.
Qed.

(** What [k + 1] one-bit shifts leave of [m]: the quotient, the last bit
    shifted out and whether anything below it was set. *)
Lemma iter_shr_1_spec (m : Z) (k : nat) :
  0 ≤ m →
  let mrs := Nat.iter (S k) shr_1 {| shr_m := m; shr_r := false; shr_s := false |} in
  0 ≤ shr_m mrs
  ∧ ∃ t, 0 ≤ t < 2 ^ Z.of_nat k
         ∧ (shr_s mrs = true ↔ t ≠ 0)
         ∧ m = shr_m mrs * 2 ^ Z.of_nat (S k)
               + (if shr_r mrs then 2 ^ Z.of_nat k else 0) + t.
Proof.
  intros Hm. induction k as [|k IH].
  - cbn [Nat.iter]. rewrite shr_1_nonneg by done. cbn [shr_m shr_r shr_s orb].
    pose proof (Z.div2_odd m) as Hdiv. split; [apply Z.div2_nonneg; lia|].
    exists 0. repeat split; try done; try lia.
    change (2 ^ Z.of_nat 1) with 2. change (2 ^ Z.of_nat 0) with 1.
    destruct (Z.odd m); simpl in Hdiv; lia.
  - cbn zeta in IH. rewrite Nat.iter_succ.
    destruct (Nat.iter (S k) shr_1 _) as [a r s].
    cbn [shr_m shr_r shr_s] in IH. destruct IH as (Ha & t & Ht & Hs & Heq).
    rewrite shr_1_nonneg by done. cbn [shr_m shr_r shr_s].
    pose proof (Z.div2_odd a) as Hdiv. split; [apply Z.div2_nonneg; lia|].
    rewrite !Nat2Z.inj_succ, !Z.pow_succ_r in * by lia.
    exists ((if r then 2 ^ Z.of_nat k else 0) + t).
    assert (0 < 2 ^ Z.of_nat k) by (apply Z.pow_pos_nonneg; lia).
    repeat split.
    + destruct r; lia.
    + destruct r; lia.
    + intros Hor. destruct r; [lia|]. cbn [orb] in Hor. apply Hs in Hor. lia.
    + intros Hne. destruct r; [done|]. cbn [orb]. apply Hs. lia.
    + destruct (Z.odd a); simpl in Hdiv; nia.
Qed.

Lemma digits2_pos_unique (x : positive) (k : Z) :
  2 ^ (k - 1) ≤ Z.pos x < 2 ^ k → Z.pos (digits2_pos x) = k.
Proof.
  intros [Hlo Hhi]. pose proof (digits2_pos_bounds x) as [Dlo Dhi].
  destruct (Z.lt_trichotomy (Z.pos (digits2_pos x)) k) as [H|[H|H]]; [|done|].
  - assert (2 ^ Z.pos (digits2_pos x) ≤ 2 ^ (k - 1))
      by (apply Z.pow_le_mono_r; lia). lia.
  - assert (0 ≤ k).
    { destruct (Z.le_gt_cases 0 k); [done|].
      rewrite (Z.pow_neg_r 2 k) in Hhi by lia. lia. }
    assert (2 ^ k ≤ 2 ^ (Z.pos (digits2_pos x) - 1))
      by (apply Z.pow_le_mono_r; lia). lia.
Qed.

(** The second half of [binary_round_aux]: a mantissa of 53 bits, or
    [2 ^ 53] after rounding up, becomes a finite number of the same
    value. *)
Lemma renormalize_53 (m2 e : Z) :
  2 ^ 52 ≤ m2 ≤ 2 ^ 53 → 1 ≤ e ≤ 970 →
  double_to_Z
    (let '(mrs, e') := shr_fexp 53 1024 m2 e loc_Exact in
     match shr_m mrs with
     | Z0 => S754_zero false
     | Z.pos mm =>
         if e' <=? 1024 - 53 then S754_finite false mm e'
         else S754_infinity false
     | Z.neg _ => S754_nan
     end)
  = Some (m2 * 2 ^ e).
Proof.
  intros Hm He. destruct m2 as [|q|q]; [lia| |lia].
  unfold shr_fexp, fexp, emin. cbn [Zdigits2 shr_record_of_loc].
  destruct (Z.eq_dec (Z.pos q) (2 ^ 53)) as [Hq|Hq].
  - rewrite (digits2_pos_unique q 54) by (change (54 - 1) with 53; lia).
    replace (Z.max (54 + e - 53) (3 - 1024 - 53) - e) with 1 by lia.
    cbn [shr SpecFloat.iter_pos]. rewrite shr_1_nonneg by lia.
    cbn [shr_m]. rewrite Hq.
    replace (Z.div2 (2 ^ 53)) with (Z.pos 4503599627370496) by reflexivity.
    cbv beta iota.
    replace (e + 1 <=? 1024 - 53) with true by (symmetry; apply Z.leb_le; lia).
    unfold double_to_Z.
    replace (0 <=? e + 1) with true by (symmetry; apply Z.leb_le; lia).
    f_equal. rewrite Z.pow_add_r by lia. lia.
  - rewrite (digits2_pos_unique q 53) by (change (53 - 1) with 52; lia).
    replace (Z.max (53 + e - 53) (3 - 1024 - 53) - e) with 0 by lia.
    cbn [shr shr_m].
    replace (e <=? 1024 - 53) with true by (symmetry; apply Z.leb_le; lia).
    unfold double_to_Z.
    by replace (0 <=? e) with true by (symmetry; apply Z.leb_le; lia).
Qed.

(** Round to nearest, ties to even, of a 54- to 64-bit integer: the
    [double] is within half a unit in the last place. *)
Lemma double_of_Z_rounds (m : positive) :
  53 < Z.pos (digits2_pos m) ≤ 64 →
  ∃ v, double_to_Z (double_of_Z (Z.pos m)) = Some v
       ∧ 2 * Z.abs (v - Z.pos m) ≤ 2 ^ (Z.pos (digits2_pos m) - 53).
Proof.
  intros Hd. pose proof (digits2_pos_bounds m) as Hm.
  unfold double_of_Z, binary_normalize, binary_round, shl_align, fexp, emin.
  rewrite Z.add_0_r, Z.sub_0_r.
  replace (Z.max (Z.pos (digits2_pos m) - 53) (3 - 1024 - 53))
    with (Z.pos (digits2_pos m) - 53) by lia.
  destruct (Z.pos (digits2_pos m) - 53) as [|p|p] eqn:Ep; [lia| |lia].
  unfold binary_round_aux at 1.
  unfold shr_fexp at 1. unfold fexp, emin.
  cbn [Zdigits2 shr_record_of_loc]. rewrite Z.add_0_r, Z.sub_0_r.
  replace (Z.max (Z.pos (digits2_pos m) - 53) (3 - 1024 - 53))
    with (Z.pos p) by lia.
  cbn [shr]. rewrite iter_pos_nat. rewrite Z.add_0_l.
  destruct (Pos.to_nat p) as [|k] eqn:Ek; [lia|].
  pose proof (iter_shr_1_spec (Z.pos m) k ltac:(lia)) as Hshift.
  cbn zeta in Hshift.
  destruct (Nat.iter (S k) shr_1 _) as [a r s].
  cbn [shr_m shr_r shr_s] in Hshift.
  destruct Hshift as (Ha & t & Ht & Hs & Heq).
  assert (Hk : Z.of_nat (S k) = Z.pos p) by lia.
  rewrite Hk in Heq.
  assert (Hhalf : 2 ^ Z.pos p = 2 * 2 ^ Z.of_nat k).
  { rewrite <- Hk, Nat2Z.inj_succ, Z.pow_succ_r; lia. }
  assert (Hpos : 0 < 2 ^ Z.of_nat k) by (apply Z.pow_pos_nonneg; lia).
  assert (Hlo : 2 ^ (Z.pos (digits2_pos m) - 1) = 2 ^ 52 * 2 ^ Z.pos p).
  { rewrite <- Z.pow_add_r by lia. f_equal. lia. }
  assert (Hhi : 2 ^ Z.pos (digits2_pos m) = 2 ^ 53 * 2 ^ Z.pos p).
  { rewrite <- Z.pow_add_r by lia. f_equal. lia. }
  rewrite Hlo, Hhi in Hm.
  set (h := 2 ^ Z.of_nat k) in *. rewrite Hhalf in *. clearbody h.
  assert (Hbits : 2 ^ 52 ≤ a < 2 ^ 53) by (destruct r; nia).
  set (m2 := round_nearest_even _ _).
  assert (Hm2 : (m2 = a ∨ m2 = a + 1) ∧ 2 * Z.abs (m2 * (2 * h) - Z.pos m) ≤ 2 * h).
  { subst m2. cbn [shr_m loc_of_shr_record].
    destruct r, s; cbn [round_nearest_even].
    - assert (t ≠ 0) by (by apply Hs). split; [by right|]. nia.
    - assert (t = 0).
      { destruct (Z.eq_dec t 0); [done|]. assert (false = true) by (by apply Hs). done. }
      destruct (Z.even a); (split; [by (left + right)|]); nia.
    - assert (t ≠ 0) by (by apply Hs). split; [by left|]. nia.
    - assert (t = 0).
      { destruct (Z.eq_dec t 0); [done|]. assert (false = true) by (by apply Hs). done. }
      split; [by left|]. nia. }
  clearbody m2. destruct Hm2 as [Hm2 Herr].
  exists (m2 * (2 * h)). split; [|done].
  rewrite <- Hhalf. apply renormalize_53; lia.
Qed.

Lemma double_of_Z_uint64 (u : Z) :
  0 ≤ u < 2 ^ 64 →
  ∃ v, double_to_Z (double_of_Z u) = Some v
       ∧ Z.abs (v - u) ≤ 1024 ∧ 2 ^ 53 * Z.abs (v - u) ≤ u.
Proof.
  intros Hu.
  destruct (Z.lt_ge_cases u (2 ^ 53)) as [Hsmall|Hbig].
  - exists u. rewrite double_of_Z_exact by lia.
    split; [done|]. rewrite Z.sub_diag. simpl Z.abs. lia.
  - destruct u as [|m|m]; [lia| |lia].
    pose proof (digits2_pos_bounds m) as [Dlo Dhi].
    assert (Hd : 53 < Z.pos (digits2_pos m) ≤ 64).
    { split.
      - destruct (Z.lt_ge_cases 53 (Z.pos (digits2_pos m))); [done|].
        assert (2 ^ Z.pos (digits2_pos m) ≤ 2 ^ 53)
          by (apply Z.pow_le_mono_r; lia). lia.
      - destruct (Z.le_gt_cases (Z.pos (digits2_pos m)) 64); [done|].
        assert (2 ^ 64 ≤ 2 ^ (Z.pos (digits2_pos m) - 1))
          by (apply Z.pow_le_mono_r; lia). lia. }
    destruct (double_of_Z_rounds m Hd) as (v & Hv & Herr).
    exists v. split; [done|].
    assert (2 ^ (Z.pos (digits2_pos m) - 53) ≤ 2 ^ 11)
      by (apply Z.pow_le_mono_r; lia).
    split; [lia|].
    assert (2 ^ (Z.pos (digits2_pos m) - 1)
            = 2 ^ 52 * 2 ^ (Z.pos (digits2_pos m) - 53)).
    { rewrite <- Z.pow_add_r by lia. f_equal. lia. }
    lia.
Qed.

(** X10.  The inertial-stream reader's timestamp is always a finite,
    non-negative whole number, never a NaN or an infinity: zero when
    [width * height] is not 14, and otherwise within 1024, and within one
    part in [2 ^ 53], of the 64-bit integer in bytes 6 to 13 of the
    payload. *)
Theorem hid_timestamp_within_1024 (mode : request_mapping) (mem : memory)
    (frame : pointer) (r : ds5_hid_timestamp_reader.t) :
  ∃ v : Z,
    double_to_Z
      (ds5_hid_timestamp_reader.get_frame_timestamp mode mem frame r).1
    = Some v
    ∧ 0 ≤ v
    ∧ if decide (ds5_hid_timestamp_reader.frame_size mode = 14)
      then Z.abs (v - load_uint64 mem (frame + 6)%N) ≤ 1024
           ∧ 2 ^ 53 * Z.abs (v - load_uint64 mem (frame + 6)%N)
             ≤ load_uint64 mem (frame + 6)%N
      else v = 0.
Proof.
  unfold ds5_hid_timestamp_reader.get_frame_timestamp,
    ds5_hid_timestamp_reader.hid_data_size,
    ds5_hid_timestamp_reader.timestamp_offset.
  destruct (Z.eqb_spec (ds5_hid_timestamp_reader.frame_size mode) 14) as [E|E];
    cbn [fst].
  - pose proof (load_uint64_range mem (frame + 6)%N) as Hu.
    destruct (double_of_Z_uint64 _ Hu) as (v & Hv & Habs & Hrel).
    exists v. rewrite decide_True by done. repeat split; [done|lia|done|done].
  - exists 0. by rewrite decide_False by done.
Qed.
